(** * Purview connector SDK: the extract / transform / validate / ingest pipeline

    A shallow embedding of [purview_connector_sdk] (the base connector, the
    database and filesystem connectors, the entity model and the stub catalog
    client) together with the properties of the pipeline.

    Conventions of the embedding
    - A Python [dict] with string keys is a [gmap string value]; dictionary
      equality in Python ignores insertion order, and so does [gmap].
    - [Dict[str, Any]] payloads that the code inspects dynamically (entities,
      attribute maps, catalog responses) are values of the type [value].
    - Metadata produced by a connector for its own [transform_to_atlas] is a
      record whose optional keys (those read with [.get(key, default)]) are
      [option] fields.
    - A raised exception is the [Raise] outcome of [result]; code that talks to
      the catalog client runs in the monad [M], which threads the list of
      bulk-create invocations observed so far.
    - Calls to [logger] have no effect on any result and are left out. *)

From Stdlib Require Import ZArith Ascii String List Lia.
From stdpp Require Import base option list gmap strings fin_maps.

#[local] Set Warnings "-register-all".
#[local] Open Scope Z_scope.

(** ** Python values *)

Inductive value : Type :=
  | VNone
  | VBool (b : bool)
  | VInt (n : Z)
  | VStr (s : string)
  | VList (l : list value)
  | VDict (d : gmap string value).

Abbreviation dict := (gmap string value).

(** Truth value testing, as [if x:] and [x or y] perform it. *)
Definition truthy (v : value) : bool :=
  match v with
  | VNone => false
  | VBool b => b
  | VInt n => negb (n =? 0)
  | VStr s => negb (String.eqb s "")
  | VList l => match l with [] => false | _ :: _ => true end
  | VDict d => negb (Nat.eqb (size d) 0)
  end.

(** ** Exceptions ([exceptions.py]) and outcomes *)

Inductive sdk_error : Type :=
  | PurviewConnectorError
  | AuthenticationError
  | IngestionError
  | ValidationError
  | ConnectionError
  | ConfigurationError
  | TransformationError.

#[global] Instance sdk_error_eq_dec : EqDecision sdk_error.
Proof. solve_decision. Defined.

(** Every SDK exception class derives from [PurviewConnectorError]. *)
Definition sdk_subclass (c parent : sdk_error) : bool :=
  match parent with
  | PurviewConnectorError => true
  | _ => bool_decide (c = parent)
  end.

(** [SdkError cls msg subject] is [cls(f"{msg}{subject}")]; the builtin
    exceptions are those the modelled operations can raise; [OtherError]
    stands for whatever a connector's own stages raise. *)
Inductive exn : Type :=
  | SdkError (cls : sdk_error) (msg : string) (subject : value)
  | TypeError
  | AttributeError
  | ValueError
  | OtherError (what : string).

Inductive result (A : Type) : Type :=
  | Ok (a : A)
  | Raise (e : exn).
Arguments Ok {A} a.
Arguments Raise {A} e.

#[global] Instance result_ret : MRet result := λ A a, Ok a.
#[global] Instance result_bind : MBind result := λ A B f r,
  match r with
  | Ok a => f a
  | Raise e => Raise e
  end.

Definition raises {A} (r : result A) : Prop := ∃ e, r = Raise e.

(** ** Operations on values *)

(** [key in container] for a string [key]: key membership in a dict, element
    membership in a list, substring test in a str, [TypeError] otherwise. *)
Definition contains (container : value) (key : string) : result bool :=
  match container with
  | VDict d => Ok (bool_decide (is_Some (d !! key)))
  | VList l =>
      Ok (existsb (λ v, match v with VStr s => String.eqb s key | _ => false end) l)
  | VStr s => Ok (bool_decide (is_Some (String.index 0 key s)))
  | VNone | VBool _ | VInt _ => Raise TypeError
  end.

(** [obj.get(key, default)]: only a dict has the method. *)
Definition dict_get (obj : value) (key : string) (dflt : value) : result value :=
  match obj with
  | VDict d => Ok (default dflt (d !! key))
  | _ => Raise AttributeError
  end.

(** ** Strings: [str.lower], [str.strip], [str.join], [x or y] *)

Definition ascii_lower (a : ascii) : ascii :=
  let n := nat_of_ascii a in
  if ((65 <=? n) && (n <=? 90))%nat then ascii_of_nat (n + 32) else a.

(** [s.lower()], on the ASCII letters. *)
Fixpoint lower (s : string) : string :=
  match s with
  | EmptyString => EmptyString
  | String a s' => String (ascii_lower a) (lower s')
  end.

Fixpoint lstrip (c : ascii) (s : string) : string :=
  match s with
  | EmptyString => EmptyString
  | String a s' => if Ascii.eqb a c then lstrip c s' else s
  end.

Fixpoint rstrip (c : ascii) (s : string) : string :=
  match s with
  | EmptyString => EmptyString
  | String a s' =>
      match rstrip c s' with
      | EmptyString => if Ascii.eqb a c then EmptyString else String a EmptyString
      | r => String a r
      end
  end.

(** [s.strip(c)] for a one-character set [c]. *)
Definition strip (c : ascii) (s : string) : string := rstrip c (lstrip c s).

(** [sep.join(parts)]. *)
Definition join (sep : string) (parts : list string) : string :=
  String.concat sep parts.

(** [x or y] for [x : Optional[str]]: [None] and the empty string are falsy. *)
Definition str_or (x : option string) (y : string) : string :=
  match x with
  | Some s => if String.eqb s "" then y else s
  | None => y
  end.

(** ** Entity model ([models/entity.py]) *)

Inductive EntityStatus : Type := ACTIVE | DELETED.

(** [status.value] *)
Definition EntityStatus_value (st : EntityStatus) : string :=
  match st with
  | ACTIVE => "ACTIVE"
  | DELETED => "DELETED"
  end.

(** [EntityStatus(v)]: lookup of a member by value, [ValueError] if none. *)
Definition EntityStatus_lookup (v : value) : result EntityStatus :=
  match v with
  | VStr s =>
      if String.eqb s "ACTIVE" then Ok ACTIVE
      else if String.eqb s "DELETED" then Ok DELETED
      else Raise ValueError
  | _ => Raise ValueError
  end.

(** The dataclass does not check the annotated types of its fields, and
    [from_atlas_dict] stores whatever the response holds, so the fields are
    values. *)
Record Entity : Type := {
  type_name : value;
  qualified_name : value;
  name : value;
  attributes : dict;
  guid : value;
  status : EntityStatus;
  created_by : value;
  updated_by : value;
  create_time : value;
  update_time : value
}.

(** [Entity(type_name, qualified_name, name, attributes)], the other fields
    at their defaults. *)
Definition Entity_of_fields (tn qn n : value) (attrs : dict) : Entity :=
  {| type_name := tn; qualified_name := qn; name := n; attributes := attrs;
     guid := VNone; status := ACTIVE;
     created_by := VNone; updated_by := VNone;
     create_time := VNone; update_time := VNone |}.

(** In [{"qualifiedName": .., "name": .., **self.attributes}] the unpacked
    attributes come last and win on a common key; [∪] is left-biased. *)
Definition to_atlas_dict (self : Entity) : dict :=
  let atlas_entity : dict :=
    {[ "typeName" := type_name self;
       "attributes" :=
         VDict (attributes self ∪
                {[ "qualifiedName" := qualified_name self;
                   "name" := name self ]});
       "status" := VStr (EntityStatus_value (status self)) ]} in
  if truthy (guid self) then <["guid" := guid self]> atlas_entity
  else atlas_entity.

Definition promoted_keys : list string := ["qualifiedName"; "name"].

Definition from_atlas_dict (data : dict) : result Entity :=
  match default (VDict ∅) (data !! "attributes") with
  | VDict attrs =>
      st ← EntityStatus_lookup (default (VStr "ACTIVE") (data !! "status"));
      Ok {| type_name := default (VStr "") (data !! "typeName");
            qualified_name := default (VStr "") (attrs !! "qualifiedName");
            name := default (VStr "") (attrs !! "name");
            attributes := filter (λ kv, kv.1 ∉ promoted_keys) attrs;
            guid := default VNone (data !! "guid");
            status := st;
            created_by := VNone; updated_by := VNone;
            create_time := VNone; update_time := VNone |}
  | _ => Raise AttributeError
  end.

(** ** Catalog client ([client.py]) *)

(** What a connector uses of its client: the bulk-create operation, which
    returns a response or raises. *)
Record CatalogClient : Type := {
  bulk_create_entities : list value → result value
}.

(** [PurviewClient.bulk_create_entities]: the stub answers with the size of
    the batch. *)
Definition PurviewClient_bulk_create_entities (entities : list value) : result value :=
  Ok (VDict {[ "entities_created" := VInt (Z.of_nat (length entities));
               "status" := VStr "success" ]}).

Definition PurviewClient : CatalogClient :=
  {| bulk_create_entities := PurviewClient_bulk_create_entities |}.

(** ** The monad of code that calls the client

    The state is the list of batches [bulk_create_entities] has been invoked
    with, oldest first; an invocation is recorded whether it returns or
    raises. *)

Definition call_log : Type := list (list value).

Definition M (A : Type) : Type := call_log → result A * call_log.

#[global] Instance M_ret : MRet M := λ A a log, (Ok a, log).
#[global] Instance M_bind : MBind M := λ A B f m log,
  match m log with
  | (Ok a, log') => f a log'
  | (Raise e, log') => (Raise e, log')
  end.

Definition lift {A} (r : result A) : M A := λ log, (r, log).

Definition invoke_bulk_create (client : CatalogClient) (entities : list value) : M value :=
  λ log, (bulk_create_entities client entities, log ++ [entities]).

(** ** Base connector ([connectors/base.py]) *)

Record BaseConnector : Type := {
  purview_client : CatalogClient;
  collection_name : string;
  qualified_name_prefix : string
}.

(** [self.__class__.__name__.lower() + "://"] *)
Definition _generate_prefix (class_name : string) : string :=
  lower class_name +:+ "://".

(** [BaseConnector.__init__], called for an instance of class [class_name];
    the keyword arguments kept in [self.config] are never read. *)
Definition BaseConnector_init (class_name : string) (client : CatalogClient)
    (collection qualified_prefix : option string) : BaseConnector :=
  {| purview_client := client;
     collection_name := str_or collection "default";
     qualified_name_prefix := str_or qualified_prefix (_generate_prefix class_name) |}.

(** The checks made on one entity of the batch, in the order of the source. *)
Definition validate_entity (entity : value) : result unit :=
  has_type ← contains entity "typeName";
  if negb has_type
  then Raise (SdkError PurviewConnectorError "Entity missing typeName: " entity)
  else
    has_attributes ← contains entity "attributes";
    if negb has_attributes
    then Raise (SdkError PurviewConnectorError "Entity missing attributes: " entity)
    else
      attrs ← dict_get entity "attributes" (VDict ∅);
      has_qualified_name ← contains attrs "qualifiedName";
      if negb has_qualified_name
      then Raise (SdkError PurviewConnectorError "Entity missing qualifiedName: " entity)
      else Ok ().

Fixpoint validate_entities (entities : list value) : result bool :=
  match entities with
  | [] => Ok true
  | entity :: rest => _ ← validate_entity entity; validate_entities rest
  end.

Definition ingest_to_purview (self : BaseConnector) (entities : list value) : M value :=
  _ ← lift (validate_entities entities);
  response ← invoke_bulk_create (purview_client self) entities;
  mret response.

(** A part of a qualified name: a [str], or [None]. *)
Definition part_truthy (p : option string) : bool :=
  match p with
  | Some s => negb (String.eqb s "")
  | None => false
  end.

(** [str(p)] *)
Definition part_str (p : option string) : string :=
  match p with
  | Some s => s
  | None => "None"
  end.

Definition create_qualified_name (self : BaseConnector) (parts : list (option string)) : string :=
  let clean_parts := map (λ p, strip "/" (part_str p)) (List.filter part_truthy parts) in
  qualified_name_prefix self +:+ join "/" clean_parts.

(** The two abstract stages a concrete connector supplies. The stages of the
    SDK's connectors read their source and never use the client, so a stage
    is a computation that returns or raises. [Metadata] is the connector's
    own metadata format. *)
Class Connector (C Metadata : Type) : Type := {
  base : C → BaseConnector;
  extract_metadata : C → result Metadata;
  transform_to_atlas : C → Metadata → result (list value)
}.

(** The dictionary [scan_and_ingest] returns: exactly these four keys. *)
Record Summary (Metadata : Type) : Type := {
  summary_status : string;
  entities_extracted : Z;
  entities_created : value;
  summary_metadata : Metadata
}.
Arguments summary_status {Metadata} _.
Arguments entities_extracted {Metadata} _.
Arguments entities_created {Metadata} _.
Arguments summary_metadata {Metadata} _.

Definition scan_and_ingest {C Metadata} `{!Connector C Metadata} (self : C)
    : M (Summary Metadata) :=
  metadata ← lift (extract_metadata self);
  entities ← lift (transform_to_atlas self metadata);
  response ← ingest_to_purview (base self) entities;
  created ← lift (dict_get response "entities_created" (VInt 0));
  mret {| summary_status := "success";
          entities_extracted := Z.of_nat (length entities);
          entities_created := created;
          summary_metadata := metadata |}.

(** ** Database connector ([connectors/database.py]) *)

(** The nested metadata mapping. Keys read with [x["key"]] are plain fields,
    keys read with [x.get("key", default)] are optional. *)
Record ColumnMetadata : Type := {
  column_name : string;
  column_type : string;
  column_nullable : option bool
}.

Record TableMetadata : Type := {
  table_name : string;
  table_columns : option (list ColumnMetadata)
}.

Record SchemaMetadata : Type := {
  schema_name : string;
  schema_tables : option (list TableMetadata)
}.

Record DatabaseMetadata : Type := {
  database_name : option string;
  schemas : option (list SchemaMetadata)
}.

Record DatabaseConnector : Type := {
  db_base : BaseConnector;
  source_type : string;
  connection_string : option string;
  connection_config : dict;
  db_use_gateway : bool;
  db_gateway_id : option string
}.

(** The placeholder extraction: the same sample database whatever the source. *)
Definition DatabaseConnector_extract_metadata (self : DatabaseConnector) : DatabaseMetadata :=
  {| database_name := Some "sample_database";
     schemas := Some [
       {| schema_name := "dbo";
          schema_tables := Some [
            {| table_name := "customers";
               table_columns := Some [
                 {| column_name := "id"; column_type := "int";
                    column_nullable := Some false |};
                 {| column_name := "name"; column_type := "varchar";
                    column_nullable := Some false |};
                 {| column_name := "email"; column_type := "varchar";
                    column_nullable := Some true |} ] |} ] |} ] |}.

Definition db_entity (self : DatabaseConnector) (db_name : string) : value :=
  VDict {[ "typeName" := VStr "rdbms_db";
           "attributes" := VDict {[
             "qualifiedName" := VStr (create_qualified_name (db_base self) [Some db_name]);
             "name" := VStr db_name;
             "description" := VStr (source_type self +:+ " database") ]} ]}.

Definition table_entity (self : DatabaseConnector) (db_name sch_name tbl_name : string) : value :=
  let table_qn :=
    create_qualified_name (db_base self) [Some db_name; Some sch_name; Some tbl_name] in
  VDict {[ "typeName" := VStr "rdbms_table";
           "attributes" := VDict {[
             "qualifiedName" := VStr table_qn;
             "name" := VStr tbl_name;
             "description" := VStr ("Table in " +:+ sch_name +:+ " schema") ]} ]}.

Definition column_entity (self : DatabaseConnector) (db_name sch_name tbl_name : string)
    (column : ColumnMetadata) : value :=
  let column_qn :=
    create_qualified_name (db_base self)
      [Some db_name; Some sch_name; Some tbl_name; Some (column_name column)] in
  VDict {[ "typeName" := VStr "rdbms_column";
           "attributes" := VDict {[
             "qualifiedName" := VStr column_qn;
             "name" := VStr (column_name column);
             "data_type" := VStr (column_type column);
             "isNullable" := VBool (default true (column_nullable column)) ]} ]}.

(** The three nested loops append to [entities]; each [foldl] carries the
    list built so far. *)
Definition DatabaseConnector_transform_to_atlas (self : DatabaseConnector)
    (metadata : DatabaseMetadata) : list value :=
  let db_name := default "unknown" (database_name metadata) in
  let entities := [db_entity self db_name] in
  foldl (λ entities schema,
    let sch_name := schema_name schema in
    foldl (λ entities table,
      let tbl_name := table_name table in
      let entities := entities ++ [table_entity self db_name sch_name tbl_name] in
      foldl (λ entities column,
               entities ++ [column_entity self db_name sch_name tbl_name column])
            entities (default [] (table_columns table)))
      entities (default [] (schema_tables schema)))
    entities (default [] (schemas metadata)).

#[global] Instance DatabaseConnector_Connector : Connector DatabaseConnector DatabaseMetadata := {|
  base := db_base;
  extract_metadata := λ self, Ok (DatabaseConnector_extract_metadata self);
  transform_to_atlas := λ self metadata, Ok (DatabaseConnector_transform_to_atlas self metadata)
|}.

(** ** Filesystem connector ([connectors/filesystem.py]) *)

(** [s.rfind(c)] *)
Fixpoint rfind (c : ascii) (s : string) : option nat :=
  match s with
  | EmptyString => None
  | String a s' =>
      match rfind c s' with
      | Some i => Some (S i)
      | None => if Ascii.eqb a c then Some 0%nat else None
      end
  end.

(** [pathlib]'s [PurePath.suffix] of a final path component (as in CPython up
    to 3.12): the part from the last dot on, unless that dot starts or ends
    the name. *)
Definition Path_suffix (name : string) : string :=
  match rfind "." name with
  | Some i =>
      if ((0 <? i) && (i <? String.length name - 1))%nat
      then String.substring i (String.length name - i) name
      else ""
  | None => ""
  end.

Inductive path_kind : Type := RegularFile | Directory | Neither.

(** A path yielded by [glob], with what the connector asks of it:
    [item.name], [str(item)], [is_file()] / [is_dir()], and the two fields of
    [item.stat()] ([st_mtime] is carried through unread). *)
Record PathItem : Type := {
  item_name : string;
  item_str : string;
  item_kind : path_kind;
  st_size : Z;
  st_mtime : Z
}.

Definition is_file (item : PathItem) : bool :=
  match item_kind item with RegularFile => true | _ => false end.

Definition is_dir (item : PathItem) : bool :=
  match item_kind item with Directory => true | _ => false end.

Definition suffix (item : PathItem) : string := Path_suffix (item_name item).

(** The file system at the time of the scan: which paths exist, and what
    [Path(root).glob(pattern)] yields, in that order. *)
Record FileSystem : Type := {
  path_exists : string → bool;
  glob : string → string → list PathItem
}.

Record FileRecord : Type := {
  file_name : string;
  file_path : string;
  file_size : Z;
  file_extension : string;
  file_modified : Z
}.

Record DirectoryRecord : Type := {
  directory_name : string;
  directory_path : string
}.

(** The early return for a missing root has no ["root_path"] key. *)
Record FileSystemMetadata : Type := {
  md_root_path : option string;
  files : list FileRecord;
  directories : list DirectoryRecord
}.

(** [root_path] is [str(self.root_path)], the path as [pathlib] prints it. *)
Record FileSystemConnector : Type := {
  fs_base : BaseConnector;
  root_path : string;
  file_extensions : option (list string);
  recursive : bool;
  fs_use_gateway : bool;
  fs_gateway_id : option string
}.

(** Truth value of [self.file_extensions]: [None] and [[]] are falsy. *)
Definition extensions_truthy (exts : option (list string)) : bool :=
  match exts with
  | Some (_ :: _) => true
  | _ => false
  end.

Definition file_record (item : PathItem) : FileRecord :=
  {| file_name := item_name item;
     file_path := item_str item;
     file_size := st_size item;
     file_extension := suffix item;
     file_modified := st_mtime item |}.

Definition directory_record (item : PathItem) : DirectoryRecord :=
  {| directory_name := item_name item; directory_path := item_str item |}.

(** One iteration of the loop over [glob]; the first branch is [continue]. *)
Definition scan_item (self : FileSystemConnector)
    (acc : list FileRecord * list DirectoryRecord) (item : PathItem)
    : list FileRecord * list DirectoryRecord :=
  let '(files, directories) := acc in
  if extensions_truthy (file_extensions self) && is_file item
     && negb (bool_decide (lower (suffix item) ∈ default [] (file_extensions self)))
  then acc
  else if is_file item then (files ++ [file_record item], directories)
  else if is_dir item then (files, directories ++ [directory_record item])
  else acc.

Definition FileSystemConnector_extract_metadata (fs : FileSystem)
    (self : FileSystemConnector) : result FileSystemMetadata :=
  if negb (path_exists fs (root_path self))
  then Ok {| md_root_path := None; files := []; directories := [] |}
  else
    let pattern := if recursive self then "**/*" else "*" in
    let '(files, directories) :=
      foldl (scan_item self) ([], []) (glob fs (root_path self) pattern) in
    Ok {| md_root_path := Some (root_path self);
          files := files;
          directories := directories |}.

(** [os.path.basename] on a POSIX path: what follows the last slash. *)
Definition basename (p : string) : string :=
  let i := match rfind "/" p with Some k => S k | None => O end in
  String.substring i (String.length p - i) p.

Definition fs_root_entity (self : FileSystemConnector) (root : string) : value :=
  VDict {[ "typeName" := VStr "fs_path";
           "attributes" := VDict {[
             "qualifiedName" := VStr (create_qualified_name (fs_base self) [Some root]);
             "name" := VStr (str_or (Some (basename root)) root);
             "path" := VStr root;
             "description" := VStr "Root directory" ]} ]}.

Definition fs_dir_entity (self : FileSystemConnector) (directory : DirectoryRecord) : value :=
  VDict {[ "typeName" := VStr "fs_path";
           "attributes" := VDict {[
             "qualifiedName" :=
               VStr (create_qualified_name (fs_base self) [Some (directory_path directory)]);
             "name" := VStr (directory_name directory);
             "path" := VStr (directory_path directory);
             "description" := VStr "Directory" ]} ]}.

Definition fs_file_entity (self : FileSystemConnector) (file : FileRecord) : value :=
  VDict {[ "typeName" := VStr "DataSet";
           "attributes" := VDict {[
             "qualifiedName" :=
               VStr (create_qualified_name (fs_base self) [Some (file_path file)]);
             "name" := VStr (file_name file);
             "description" := VStr ("File: " +:+ file_name file);
             "fileExtension" := VStr (file_extension file);
             "fileSize" := VInt (file_size file) ]} ]}.

(** [transform_to_atlas] on the metadata [extract_metadata] builds: the keys
    [files], [directories], [extension] and [size] are always there, so the
    defaults of their [.get] are never used; [root_path] is missing after
    the early return. *)
Definition FileSystemConnector_transform_to_atlas (self : FileSystemConnector)
    (metadata : FileSystemMetadata) : list value :=
  let root := default "" (md_root_path metadata) in
  let entities := [fs_root_entity self root] in
  let entities :=
    foldl (λ entities directory, entities ++ [fs_dir_entity self directory])
          entities (directories metadata) in
  foldl (λ entities file, entities ++ [fs_file_entity self file])
        entities (files metadata).

(** The connector scanning the file system [fs]. *)
Definition FileSystemConnector_Connector (fs : FileSystem)
    : Connector FileSystemConnector FileSystemMetadata :=
  {| base := fs_base;
     extract_metadata := FileSystemConnector_extract_metadata fs;
     transform_to_atlas := λ self metadata,
       Ok (FileSystemConnector_transform_to_atlas self metadata) |}.

Definition FileSystemConnector_scan_and_ingest (fs : FileSystem)
    (self : FileSystemConnector) : M (Summary FileSystemMetadata) :=
  @scan_and_ingest _ _ (FileSystemConnector_Connector fs) self.

(** ** Relationship model ([models/relationship.py]) *)

Inductive RelationshipStatus : Type := Relationship_ACTIVE | Relationship_DELETED.

Definition RelationshipStatus_value (st : RelationshipStatus) : string :=
  match st with
  | Relationship_ACTIVE => "ACTIVE"
  | Relationship_DELETED => "DELETED"
  end.

(** [RelationshipStatus(v)] *)
Definition RelationshipStatus_lookup (v : value) : result RelationshipStatus :=
  match v with
  | VStr s =>
      if String.eqb s "ACTIVE" then Ok Relationship_ACTIVE
      else if String.eqb s "DELETED" then Ok Relationship_DELETED
      else Raise ValueError
  | _ => Raise ValueError
  end.

(** As for [Entity], the field types are not enforced. *)
Record Relationship : Type := {
  rel_type_name : value;
  end1_guid : value;
  end2_guid : value;
  rel_guid : value;
  rel_status : RelationshipStatus;
  rel_attributes : value
}.

(** [__post_init__]: attributes that are [None] become the empty dict. *)
Definition Relationship_post_init (self : Relationship) : Relationship :=
  match rel_attributes self with
  | VNone =>
      {| rel_type_name := rel_type_name self; end1_guid := end1_guid self;
         end2_guid := end2_guid self; rel_guid := rel_guid self;
         rel_status := rel_status self; rel_attributes := VDict ∅ |}
  | _ => self
  end.

(** The constructor the dataclass generates: the fields are stored, then
    [__post_init__] runs. *)
Definition Relationship_new (tn e1 e2 g : value) (st : RelationshipStatus)
    (attrs : value) : Relationship :=
  Relationship_post_init
    {| rel_type_name := tn; end1_guid := e1; end2_guid := e2; rel_guid := g;
       rel_status := st; rel_attributes := attrs |}.

Definition Relationship_to_atlas_dict (self : Relationship) : dict :=
  let atlas_relationship : dict :=
    {[ "typeName" := rel_type_name self;
       "end1" := VDict {[ "guid" := end1_guid self ]};
       "end2" := VDict {[ "guid" := end2_guid self ]};
       "status" := VStr (RelationshipStatus_value (rel_status self)) ]} in
  let atlas_relationship :=
    if truthy (rel_guid self)
    then <["guid" := rel_guid self]> atlas_relationship
    else atlas_relationship in
  if truthy (rel_attributes self)
  then <["attributes" := rel_attributes self]> atlas_relationship
  else atlas_relationship.

(** The keyword arguments are evaluated in the order written, so a bad
    [end1] or [end2] is reported before a bad [status]. *)
Definition Relationship_from_atlas_dict (data : dict) : result Relationship :=
  e1 ← dict_get (default (VDict ∅) (data !! "end1")) "guid" (VStr "");
  e2 ← dict_get (default (VDict ∅) (data !! "end2")) "guid" (VStr "");
  st ← RelationshipStatus_lookup (default (VStr "ACTIVE") (data !! "status"));
  Ok (Relationship_new (default (VStr "") (data !! "typeName")) e1 e2
        (default VNone (data !! "guid")) st
        (default (VDict ∅) (data !! "attributes"))).

(** ** Client authentication ([client.py]) *)

(** The credential objects of [azure.identity] the client can end up
    holding. The constructors belong to that library, not to the SDK; they
    are taken to return the object they are asked for. *)
Inductive Credential : Type :=
  | ClientSecretCredential (tenant client secret : string)
  | ManagedIdentityCredential (client : option string)
  | AzureCliCredential
  | InteractiveBrowserCredential
  | DefaultAzureCredential.

(** [os.getenv] *)
Definition environ : Type := string → option string.

(** [x or y] where both are [Optional[str]]. *)
Definition optional_or (x y : option string) : option string :=
  if part_truthy x then x else y.

(** The authentication arguments of [PurviewClient.__init__]. A credential
    object passed in is truthy. *)
Record AuthArguments : Type := {
  tenant_id : option string;
  client_id : option string;
  client_secret : option string;
  credential : option Credential;
  use_managed_identity : bool;
  managed_identity_client_id : option string;
  use_cli_credentials : bool;
  interactive : bool
}.

Definition authentication_error (msg : string) : exn :=
  SdkError AuthenticationError msg (VStr "").

Definition _setup_authentication (env : environ) (args : AuthArguments) : result Credential :=
  match credential args with
  | Some provided => Ok provided
  | None =>
      if part_truthy (client_id args) && part_truthy (client_secret args)
      then
        let tenant := optional_or (tenant_id args) (env "AZURE_TENANT_ID") in
        if negb (part_truthy tenant)
        then Raise (authentication_error "tenant_id required for Service Principal auth")
        else Ok (ClientSecretCredential (part_str tenant)
                   (part_str (client_id args)) (part_str (client_secret args)))
      else if use_managed_identity args
      then
        if part_truthy (managed_identity_client_id args)
        then Ok (ManagedIdentityCredential (managed_identity_client_id args))
        else Ok (ManagedIdentityCredential None)
      else if use_cli_credentials args then Ok AzureCliCredential
      else if interactive args then Ok InteractiveBrowserCredential
      else Ok DefaultAzureCredential
  end.

(** ** Vocabulary of the statements *)

(** A record passes the three checks: it has a [typeName] key, an
    [attributes] mapping, and a [qualifiedName] key in that mapping. The
    values under the keys are not looked at. *)
Definition record_ok (d : dict) : Prop :=
  is_Some (d !! "typeName") ∧
  ∃ attrs : dict, d !! "attributes" = Some (VDict attrs) ∧
                  is_Some (attrs !! "qualifiedName").

(** The reading of the three conditions that asks for a non-empty type name. *)
Definition record_ok_nonempty (d : dict) : Prop :=
  (∃ tn, d !! "typeName" = Some tn ∧ truthy tn = true) ∧
  ∃ attrs : dict, d !! "attributes" = Some (VDict attrs) ∧
                  is_Some (attrs !! "qualifiedName").

(** Whatever is stored under [attributes] is a mapping. *)
Definition attributes_is_mapping (d : dict) : Prop :=
  ∀ v, d !! "attributes" = Some v → ∃ attrs : dict, v = VDict attrs.


(** [e] with its guid replaced. *)
Definition with_guid (g : value) (e : Entity) : Entity :=
  {| type_name := type_name e; qualified_name := qualified_name e;
     name := name e; attributes := attributes e;
     guid := g; status := status e;
     created_by := created_by e; updated_by := updated_by e;
     create_time := create_time e; update_time := update_time e |}.

(** [n] slashes in a row. *)
Fixpoint slashes (n : nat) : string :=
  match n with
  | O => EmptyString
  | S n' => String "/" (slashes n')
  end.

Definition starts_with (c : ascii) (s : string) : Prop :=
  ∃ s', s = String c s'.

Definition ends_with (c : ascii) (s : string) : Prop :=
  ∃ s', s = s' +:+ String c EmptyString.

(** [t] is [s] without its leading and trailing slashes. *)
Definition trimmed_of (s t : string) : Prop :=
  (∃ i j, s = slashes i +:+ t +:+ slashes j) ∧
  ¬ starts_with "/" t ∧ ¬ ends_with "/" t.

(** The parts that are kept: the strings that are neither [None] nor empty,
    in their order. *)
Fixpoint kept_parts (parts : list (option string)) : list string :=
  match parts with
  | [] => []
  | Some (String a s) :: rest => String a s :: kept_parts rest
  | _ :: rest => kept_parts rest
  end.

(** Membership of an extension in the allow-list up to letter case. *)
Definition case_insensitive_member (ext : string) (exts : list string) : Prop :=
  ∃ e, e ∈ exts ∧ lower e = lower ext.

(** Type name and display name of an entity dictionary. *)
Definition entity_label (e : value) : option (value * value) :=
  match e with
  | VDict d =>
      match d !! "typeName", d !! "attributes" with
      | Some tn, Some (VDict attrs) =>
          match attrs !! "name" with
          | Some n => Some (tn, n)
          | None => None
          end
      | _, _ => None
      end
  | _ => None
  end.

(** The schemas of the database scenario: [dbo] with the table [customers]. *)
Definition customers_schemas : list SchemaMetadata :=
  [ {| schema_name := "dbo";
       schema_tables := Some [
         {| table_name := "customers";
            table_columns := Some [
              {| column_name := "id"; column_type := "int";
                 column_nullable := Some false |};
              {| column_name := "name"; column_type := "varchar";
                 column_nullable := Some false |};
              {| column_name := "email"; column_type := "varchar";
                 column_nullable := Some true |} ] |} ] |} ].

(** The entities of one table, and of one schema, in emission order. *)
Definition table_entities (self : DatabaseConnector) (db_name sch_name : string)
    (table : TableMetadata) : list value :=
  table_entity self db_name sch_name (table_name table)
  :: map (column_entity self db_name sch_name (table_name table))
         (default [] (table_columns table)).

Definition schema_entities (self : DatabaseConnector) (db_name : string)
    (schema : SchemaMetadata) : list value :=
  concat (map (table_entities self db_name (schema_name schema))
              (default [] (schema_tables schema))).

(** The files the scan keeps: regular files and, when an allow-list is in
    force, only those whose lower-cased suffix is one of its entries. *)
Definition keeps_file (self : FileSystemConnector) (item : PathItem) : bool :=
  is_file item &&
  (negb (extensions_truthy (file_extensions self)) ||
   bool_decide (lower (suffix item) ∈ default [] (file_extensions self))).

(** ** Sample data *)

(** A connector whose two stages return canned results, as a test double
    subclassing [BaseConnector] would. *)
Record CannedConnector : Type := {
  canned_base : BaseConnector;
  canned_metadata : result value;
  canned_entities : result (list value)
}.

#[global] Instance CannedConnector_Connector : Connector CannedConnector value := {|
  base := canned_base;
  extract_metadata := canned_metadata;
  transform_to_atlas := λ self _, canned_entities self
|}.

Definition sample_base : BaseConnector :=
  BaseConnector_init "DatabaseConnector" PurviewClient None None.

Definition sample_database_connector : DatabaseConnector :=
  {| db_base := sample_base; source_type := "sql_server";
     connection_string := None; connection_config := ∅;
     db_use_gateway := false; db_gateway_id := None |}.

(** A record that passes validation. *)
Definition record_complete : dict :=
  {[ "typeName" := VStr "DataSet";
     "attributes" := VDict {[ "qualifiedName" := VStr "demo://orders";
                              "name" := VStr "orders" ]} ]}.

(** A record whose type name is the empty string. *)
Definition record_empty_type : dict :=
  {[ "typeName" := VStr "";
     "attributes" := VDict {[ "qualifiedName" := VStr "demo://orders" ]} ]}.

(** A record whose attributes have no [qualifiedName]. *)
Definition record_unqualified : dict :=
  {[ "typeName" := VStr "DataSet";
     "attributes" := VDict {[ "name" := VStr "orders" ]} ]}.


(** A root directory [data] holding the file [report.CSV] and the directory
    [sub], scanned with the allow-list [[".CSV"]]. *)
Definition report_item : PathItem :=
  {| item_name := "report.CSV"; item_str := "data/report.CSV";
     item_kind := RegularFile; st_size := 100; st_mtime := 0 |}.

Definition sub_item : PathItem :=
  {| item_name := "sub"; item_str := "data/sub";
     item_kind := Directory; st_size := 4096; st_mtime := 0 |}.

Definition data_fs : FileSystem :=
  {| path_exists := λ p, bool_decide (p = "data");
     glob := λ root pattern,
       if bool_decide (root = "data") then [report_item; sub_item] else [] |}.

Definition upper_case_connector : FileSystemConnector :=
  {| fs_base := BaseConnector_init "FileSystemConnector" PurviewClient None None;
     root_path := "data";
     file_extensions := Some [".CSV"];
     recursive := true;
     fs_use_gateway := false;
     fs_gateway_id := None |}.

(** The same connector pointed at a root that does not exist. *)
Definition missing_root_connector : FileSystemConnector :=
  {| fs_base := BaseConnector_init "FileSystemConnector" PurviewClient None None;
     root_path := "nowhere";
     file_extensions := Some [".csv"];
     recursive := true;
     fs_use_gateway := false;
     fs_gateway_id := None |}.

(** ** Further vocabulary and sample data *)

(** The [qualifiedName] attribute of an entity dictionary. *)
Definition entity_qualified_name (e : value) : option value :=
  match e with
  | VDict d =>
      match d !! "attributes" with
      | Some (VDict attrs) => attrs !! "qualifiedName"
      | _ => None
      end
  | _ => None
  end.

(** A value that is not a container: [in] cannot be applied to it. *)
Definition not_iterable (v : value) : Prop :=
  match v with
  | VNone | VBool _ | VInt _ => True
  | _ => False
  end.

(** The number of entities a table, a schema contribute. *)
Definition table_count (table : TableMetadata) : nat :=
  S (length (default [] (table_columns table))).

Definition schema_count (schema : SchemaMetadata) : nat :=
  sum_list (map table_count (default [] (schema_tables schema))).

(** The key is absent or holds a mapping; is absent or holds the value of a
    status member. *)
Definition absent_or_mapping (v : option value) : Prop :=
  match v with
  | None | Some (VDict _) => True
  | Some _ => False
  end.

Definition absent_or_status (v : option value) : Prop :=
  v = None ∨ v = Some (VStr "ACTIVE") ∨ v = Some (VStr "DELETED").

(** The strategies in the order [_setup_authentication] tries them, each
    with the condition under which it is taken. *)
Inductive strategy : Type :=
  | Explicit | ServicePrincipal | ManagedIdentity | AzureCli | Interactive | DefaultChain.

Definition strategy_requested (args : AuthArguments) (s : strategy) : bool :=
  match s with
  | Explicit => bool_decide (is_Some (credential args))
  | ServicePrincipal => part_truthy (client_id args) && part_truthy (client_secret args)
  | ManagedIdentity => use_managed_identity args
  | AzureCli => use_cli_credentials args
  | Interactive => interactive args
  | DefaultChain => true
  end.

Definition strategy_order : list strategy :=
  [Explicit; ServicePrincipal; ManagedIdentity; AzureCli; Interactive; DefaultChain].

(** The strategy a credential comes from, for credentials the client builds. *)
Definition strategy_of (c : Credential) : strategy :=
  match c with
  | ClientSecretCredential _ _ _ => ServicePrincipal
  | ManagedIdentityCredential _ => ManagedIdentity
  | AzureCliCredential => AzureCli
  | InteractiveBrowserCredential => Interactive
  | DefaultAzureCredential => DefaultChain
  end.

(** A record whose attributes are [None]. *)
Definition record_null_attributes : dict :=
  {[ "typeName" := VStr "DataSet"; "attributes" := VNone ]}.


Definition unfiltered_connector : FileSystemConnector :=
  {| fs_base := BaseConnector_init "FileSystemConnector" PurviewClient None None;
     root_path := "data";
     file_extensions := Some [];
     recursive := false;
     fs_use_gateway := false;
     fs_gateway_id := None |}.

Definition sample_column : ColumnMetadata :=
  {| column_name := "id"; column_type := "int"; column_nullable := Some false |}.

(** * Properties *)

(** ** Validation *)

Lemma validate_entity_cases (e : value) :
  validate_entity e = Ok () ∨ raises (validate_entity e).
Proof.
  destruct (validate_entity e) as [[]|x]; [by left | right; by exists x].
Qed.

(** What passing the three checks means for an arbitrary value. *)
Lemma validate_entity_ok_iff (e : value) :
  validate_entity e = Ok () ↔
  ∃ (d : dict) (a : value),
    e = VDict d ∧ is_Some (d !! "typeName") ∧ d !! "attributes" = Some a ∧
    contains a "qualifiedName" = Ok true.
Proof.
  unfold validate_entity. split.
  - destruct e as [| | | s | l | d]; simpl; try discriminate.
    + repeat case_bool_decide; simpl; discriminate.
    + repeat (destruct (existsb _ l); simpl; try discriminate).
    + case_bool_decide as Ht; simpl; [|discriminate].
      case_bool_decide as Ha; simpl; [|discriminate].
      destruct Ha as [a Ha]. rewrite Ha. simpl.
      destruct (contains a "qualifiedName") as [[]|] eqn:Hq; simpl; try discriminate.
      intros _. by exists d, a.
  - intros (d & a & -> & Ht & Ha & Hq). simpl.
    rewrite bool_decide_eq_true_2 by done. simpl.
    rewrite bool_decide_eq_true_2 by (rewrite Ha; eauto). simpl.
    rewrite Ha. simpl. rewrite Hq. done.
Qed.

Lemma validate_entity_record (d : dict) :
  attributes_is_mapping d →
  validate_entity (VDict d) = Ok () ↔ record_ok d.
Proof.
  intros Hmap. rewrite validate_entity_ok_iff. split.
  - intros (d' & a & [= <-] & Ht & Ha & Hq). split; [done|].
    destruct (Hmap a Ha) as [attrs ->]. exists attrs. split; [done|].
    simpl in Hq. injection Hq as Hq. by apply bool_decide_eq_true in Hq.
  - intros (Ht & attrs & Ha & Hq). exists d, (VDict attrs).
    repeat split; try done. simpl. by rewrite bool_decide_eq_true_2.
Qed.

Lemma validate_entities_cons (e : value) (es : list value) :
  validate_entities (e :: es) =
    match validate_entity e with
    | Ok _ => validate_entities es
    | Raise x => Raise x
    end.
Proof. reflexivity. Qed.

(** The loop returns [True] exactly when no entity fails a check. *)
Lemma validate_entities_ok_iff (es : list value) :
  validate_entities es = Ok true ↔ Forall (λ e, validate_entity e = Ok ()) es.
Proof.
  induction es as [|e es IH].
  - split; [constructor | reflexivity].
  - rewrite validate_entities_cons, Forall_cons.
    destruct (validate_entity e) as [[]|x].
    + rewrite IH. tauto.
    + split; [discriminate | intros [? _]; discriminate].
Qed.

(** The loop never returns [False]. *)
Lemma validate_entities_cases (es : list value) :
  validate_entities es = Ok true ∨ raises (validate_entities es).
Proof.
  induction es as [|e es IH]; [by left|].
  rewrite validate_entities_cons.
  destruct (validate_entity e) as [[]|x]; [done | right; by exists x].
Qed.

(** The exception is that of the first entity failing a check. *)
Lemma validate_entities_first_failure (pre post : list value) (e : value) (x : exn) :
  Forall (λ e, validate_entity e = Ok ()) pre →
  validate_entity e = Raise x →
  validate_entities (pre ++ e :: post) = Raise x.
Proof.
  intros Hpre He. induction Hpre as [|p pre Hp _ IH]; simpl.
  - by rewrite He.
  - by rewrite Hp.
Qed.

Lemma contains_raises (c : value) (k : string) (x : exn) :
  contains c k = Raise x → x = TypeError.
Proof. destruct c; simpl; congruence. Qed.

Lemma dict_get_raises (c : value) (k : string) (dflt : value) (x : exn) :
  dict_get c k dflt = Raise x → x = AttributeError.
Proof. destruct c; simpl; congruence. Qed.

(** Every SDK exception raised by validation is of the base class. *)
Lemma validate_entity_raises_base (e : value) cls msg subject :
  validate_entity e = Raise (SdkError cls msg subject) →
  cls = PurviewConnectorError ∧ subject = e.
Proof.
  unfold validate_entity.
  destruct (contains e "typeName") as [[]|x1] eqn:H1; simpl;
    [| intros [= <- _ <-]; done
     | apply contains_raises in H1 as ->; discriminate].
  destruct (contains e "attributes") as [[]|x2] eqn:H2; simpl;
    [| intros [= <- _ <-]; done
     | apply contains_raises in H2 as ->; discriminate].
  destruct (dict_get e "attributes" (VDict ∅)) as [a|x3] eqn:H3; simpl;
    [| apply dict_get_raises in H3 as ->; discriminate].
  destruct (contains a "qualifiedName") as [[]|x4] eqn:H4; simpl;
    [ discriminate
    | intros [= <- _ <-]; done
    | apply contains_raises in H4 as ->; discriminate].
Qed.

Lemma Forall_iff_under {A} (P Q R : A → Prop) (l : list A) :
  (∀ x, P x → (Q x ↔ R x)) → Forall P l → (Forall Q l ↔ Forall R l).
Proof.
  intros HPQR HP. induction HP as [|x l Hx _ IH].
  - split; constructor.
  - rewrite !Forall_cons, IH, (HPQR x Hx). tauto.
Qed.

(** C1, amended. For entity records whose [attributes] value, when present,
    is a mapping, [validate_entities] returns [True] if and only if every
    record has a [typeName] key, an [attributes] key and a [qualifiedName] key
    inside the attributes (the values under these keys are not inspected);
    otherwise the call raises, and the exception is the one of the first
    record that fails a check, whatever follows it in the batch. *)
Theorem validate_entities_all_or_nothing (es : list dict) :
  Forall attributes_is_mapping es →
  (validate_entities (VDict <$> es) = Ok true ↔ Forall record_ok es) ∧
  (¬ Forall record_ok es → raises (validate_entities (VDict <$> es))) ∧
  (∀ pre e post,
     es = pre ++ e :: post → Forall record_ok pre → ¬ record_ok e →
     ∃ x, validate_entity (VDict e) = Raise x ∧
          validate_entities (VDict <$> es) = Raise x).
Proof.
  intros Hmap.
  assert (Hiff : validate_entities (VDict <$> es) = Ok true ↔ Forall record_ok es).
  { rewrite validate_entities_ok_iff, Forall_fmap.
    apply (Forall_iff_under attributes_is_mapping); [|done].
    intros d Hd. simpl. by apply validate_entity_record. }
  split; [done|]. split.
  - intros Hbad. destruct (validate_entities_cases (VDict <$> es)) as [Hok|Hr]; [|done].
    by apply Hiff in Hok.
  - intros pre e post -> Hpre He.
    apply Forall_app in Hmap as [Hmpre Hme].
    apply Forall_cons in Hme as [Hme _].
    destruct (validate_entity_cases (VDict e)) as [Hok|[x Hx]].
    { by apply validate_entity_record in Hok. }
    exists x. split; [done|].
    rewrite fmap_app, fmap_cons.
    apply validate_entities_first_failure; [|done].
    rewrite Forall_fmap. apply Forall_forall. intros p Hp. simpl.
    rewrite Forall_forall in Hmpre. rewrite Forall_forall in Hpre.
    apply validate_entity_record; auto.
Qed.

Lemma validate_entities_all_or_nothing_witness :
  Forall attributes_is_mapping [record_complete; record_unqualified] ∧
  raises (validate_entities (VDict <$> [record_complete; record_unqualified])).
Proof.
  assert (Hmap : Forall attributes_is_mapping [record_complete; record_unqualified]).
  { repeat constructor; intros v Hv; vm_compute in Hv;
      injection Hv as <-; eexists; reflexivity. }
  split; [exact Hmap|].
  apply (validate_entities_all_or_nothing _ Hmap).
  intros Hall. apply Forall_cons in Hall as [_ Hall].
  apply Forall_cons in Hall as [(_ & attrs & Hattrs & Hqn) _].
  vm_compute in Hattrs. injection Hattrs as <-.
  vm_compute in Hqn. by destruct Hqn.
Defined.

Lemma validate_entities_accepts_empty_type_name :
  validate_entities [VDict record_empty_type] = Ok true ∧
  ¬ record_ok_nonempty record_empty_type.
Proof.
  split; [vm_compute; reflexivity|].
  intros [(tn & Htn & Htruthy) _].
  vm_compute in Htn. injection Htn as <-. discriminate.
Qed.

(** The class of the exception for a missing key is the base class of the
    SDK's hierarchy, of which [ValidationError] is a proper subclass. *)
Lemma validate_entities_missing_key_class :
  validate_entities [VDict record_unqualified] =
    Raise (SdkError PurviewConnectorError "Entity missing qualifiedName: "
                    (VDict record_unqualified)) ∧
  sdk_subclass PurviewConnectorError ValidationError = false.
Proof. split; vm_compute; reflexivity. Qed.

(** ** Ingestion *)

Lemma ingest_to_purview_invalid (self : BaseConnector) (es : list value)
    (log : call_log) (x : exn) :
  validate_entities es = Raise x →
  ingest_to_purview self es log = (Raise x, log).
Proof. intros H. unfold ingest_to_purview, lift, mbind, M_bind. by rewrite H. Qed.

Lemma ingest_to_purview_valid (self : BaseConnector) (es : list value) (log : call_log) :
  validate_entities es = Ok true →
  ingest_to_purview self es log =
    (bulk_create_entities (purview_client self) es, log ++ [es]).
Proof.
  intros H. unfold ingest_to_purview, lift, invoke_bulk_create, mbind, M_bind, mret, M_ret.
  rewrite H. by destruct (bulk_create_entities _ _).
Qed.

(** C9. An empty batch passes validation, and ingesting it through the stub
    client returns [{entities_created: 0, status: "success"}]; the client is
    still called once, with the empty batch. *)
Theorem empty_batch_succeeds (coll prefix : string) (log : call_log) :
  validate_entities [] = Ok true ∧
  ingest_to_purview
    {| purview_client := PurviewClient; collection_name := coll;
       qualified_name_prefix := prefix |} [] log =
    (Ok (VDict {[ "entities_created" := VInt 0; "status" := VStr "success" ]}),
     log ++ [[]]).
Proof. split; [reflexivity|]. by rewrite ingest_to_purview_valid. Qed.

(** ** The scan workflow *)

Section scan_and_ingest.
Context {C Metadata : Type} `{!Connector C Metadata}.
Implicit Types (self : C) (log : call_log) (md : Metadata) (es : list value).

Lemma scan_extract_raises self log x :
  extract_metadata self = Raise x →
  scan_and_ingest self log = (Raise x, log).
Proof. intros H. unfold scan_and_ingest, lift, mbind, M_bind. by rewrite H. Qed.

Lemma scan_transform_raises self log md x :
  extract_metadata self = Ok md →
  transform_to_atlas self md = Raise x →
  scan_and_ingest self log = (Raise x, log).
Proof.
  intros H1 H2. unfold scan_and_ingest, lift, mbind, M_bind. by rewrite H1, H2.
Qed.

Lemma scan_after_transform self log md es :
  extract_metadata self = Ok md →
  transform_to_atlas self md = Ok es →
  scan_and_ingest self log =
    match ingest_to_purview (base self) es log with
    | (Ok response, log') =>
        match dict_get response "entities_created" (VInt 0) with
        | Ok created =>
            (Ok {| summary_status := "success";
                   entities_extracted := Z.of_nat (length es);
                   entities_created := created;
                   summary_metadata := md |}, log')
        | Raise x => (Raise x, log')
        end
    | (Raise x, log') => (Raise x, log')
    end.
Proof.
  intros H1 H2. unfold scan_and_ingest, lift, mbind, M_bind, mret, M_ret.
  rewrite H1, H2.
  destruct (ingest_to_purview (base self) es log) as [[response|x] log']; [|done].
  by destruct (dict_get response "entities_created" (VInt 0)).
Qed.

Lemma scan_validate_raises self log md es x :
  extract_metadata self = Ok md →
  transform_to_atlas self md = Ok es →
  validate_entities es = Raise x →
  scan_and_ingest self log = (Raise x, log).
Proof.
  intros H1 H2 H3. rewrite (scan_after_transform _ _ _ _ H1 H2).
  by rewrite (ingest_to_purview_invalid _ _ _ _ H3).
Qed.

Lemma scan_succeeds self log md es (response : dict) :
  extract_metadata self = Ok md →
  transform_to_atlas self md = Ok es →
  validate_entities es = Ok true →
  bulk_create_entities (purview_client (base self)) es = Ok (VDict response) →
  scan_and_ingest self log =
    (Ok {| summary_status := "success";
           entities_extracted := Z.of_nat (length es);
           entities_created := default (VInt 0) (response !! "entities_created");
           summary_metadata := md |},
     log ++ [es]).
Proof.
  intros H1 H2 H3 H4. rewrite (scan_after_transform _ _ _ _ H1 H2).
  by rewrite (ingest_to_purview_valid _ _ _ H3), H4.
Qed.

Lemma scan_client_raises self log md es x :
  extract_metadata self = Ok md →
  transform_to_atlas self md = Ok es →
  validate_entities es = Ok true →
  bulk_create_entities (purview_client (base self)) es = Raise x →
  scan_and_ingest self log = (Raise x, log ++ [es]).
Proof.
  intros H1 H2 H3 H4. rewrite (scan_after_transform _ _ _ _ H1 H2).
  by rewrite (ingest_to_purview_valid _ _ _ H3), H4.
Qed.

(** A response that is not a mapping has no [get]: the call ends with
    [AttributeError] after the client has been invoked. *)
Lemma scan_response_not_mapping self log md es (response : value) :
  extract_metadata self = Ok md →
  transform_to_atlas self md = Ok es →
  validate_entities es = Ok true →
  bulk_create_entities (purview_client (base self)) es = Ok response →
  (∀ d : dict, response ≠ VDict d) →
  scan_and_ingest self log = (Raise AttributeError, log ++ [es]).
Proof.
  intros H1 H2 H3 H4 Hnot. rewrite (scan_after_transform _ _ _ _ H1 H2).
  rewrite (ingest_to_purview_valid _ _ _ H3), H4.
  destruct response; try done. by destruct (Hnot d).
Qed.


(** C6. When no stage raises, [scan_and_ingest] returns the summary with
    status ["success"], the number of transformed entities, the
    [entities_created] entry of the client's bulk-create response (0 if the
    response has none) and the metadata as extracted; an exception raised
    by extract, transform, validation or the client's bulk-create ends the
    call with that same exception. *)
Theorem scan_and_ingest_summary self log :
  (∀ md es (response : dict),
     extract_metadata self = Ok md →
     transform_to_atlas self md = Ok es →
     validate_entities es = Ok true →
     bulk_create_entities (purview_client (base self)) es = Ok (VDict response) →
     scan_and_ingest self log =
       (Ok {| summary_status := "success";
              entities_extracted := Z.of_nat (length es);
              entities_created := default (VInt 0) (response !! "entities_created");
              summary_metadata := md |},
        log ++ [es])) ∧
  (∀ x, extract_metadata self = Raise x →
        scan_and_ingest self log = (Raise x, log)) ∧
  (∀ md x, extract_metadata self = Ok md →
           transform_to_atlas self md = Raise x →
           scan_and_ingest self log = (Raise x, log)) ∧
  (∀ md es x, extract_metadata self = Ok md →
              transform_to_atlas self md = Ok es →
              validate_entities es = Raise x →
              scan_and_ingest self log = (Raise x, log)) ∧
  (∀ md es x, extract_metadata self = Ok md →
              transform_to_atlas self md = Ok es →
              validate_entities es = Ok true →
              bulk_create_entities (purview_client (base self)) es = Raise x →
              scan_and_ingest self log = (Raise x, log ++ [es])).
Proof.
  repeat split.
  - intros md es response. apply scan_succeeds.
  - apply scan_extract_raises.
  - apply scan_transform_raises.
  - apply scan_validate_raises.
  - intros md es x. apply scan_client_raises.
Qed.
End scan_and_ingest.


Lemma scan_and_ingest_summary_witness :
  scan_and_ingest sample_database_connector [] =
    (Ok {| summary_status := "success";
           entities_extracted := 5;
           entities_created := VInt 5;
           summary_metadata :=
             DatabaseConnector_extract_metadata sample_database_connector |},
     [DatabaseConnector_transform_to_atlas sample_database_connector
        (DatabaseConnector_extract_metadata sample_database_connector)]).
Proof.
  pose proof (proj1 (scan_and_ingest_summary sample_database_connector [])
           (DatabaseConnector_extract_metadata sample_database_connector)
           (DatabaseConnector_transform_to_atlas sample_database_connector
              (DatabaseConnector_extract_metadata sample_database_connector))
           {[ "entities_created" := VInt 5; "status" := VStr "success" ]}) as Hrun.
  rewrite Hrun.
  - vm_compute. reflexivity.
  - reflexivity.
  - reflexivity.
  - vm_compute. reflexivity.
  - vm_compute. reflexivity.
Defined.

(** ** Entity serialization *)

Lemma EntityStatus_lookup_value (st : EntityStatus) :
  EntityStatus_lookup (VStr (EntityStatus_value st)) = Ok st.
Proof. by destruct st. Qed.

Lemma to_atlas_dict_lookup_typeName (e : Entity) :
  to_atlas_dict e !! "typeName" = Some (type_name e).
Proof. unfold to_atlas_dict. destruct (truthy (guid e)); by simplify_map_eq. Qed.

Lemma to_atlas_dict_lookup_attributes (e : Entity) :
  to_atlas_dict e !! "attributes" =
    Some (VDict (attributes e ∪ {[ "qualifiedName" := qualified_name e;
                                   "name" := name e ]})).
Proof. unfold to_atlas_dict. destruct (truthy (guid e)); by simplify_map_eq. Qed.

Lemma to_atlas_dict_lookup_status (e : Entity) :
  to_atlas_dict e !! "status" = Some (VStr (EntityStatus_value (status e))).
Proof. unfold to_atlas_dict. destruct (truthy (guid e)); by simplify_map_eq. Qed.

Lemma to_atlas_dict_lookup_guid (e : Entity) :
  to_atlas_dict e !! "guid" = if truthy (guid e) then Some (guid e) else None.
Proof. unfold to_atlas_dict. destruct (truthy (guid e)); by simplify_map_eq. Qed.

(** Merging the attributes over the two promoted keys. *)
Lemma merged_lookup (attrs : dict) (qn n : value) (k : string) :
  (attrs ∪ {[ "qualifiedName" := qn; "name" := n ]}) !! k =
    match attrs !! k with
    | Some v => Some v
    | None => if decide (k = "qualifiedName") then Some qn
              else if decide (k = "name") then Some n else None
    end.
Proof.
  rewrite lookup_union. destruct (attrs !! k) as [v|]; simpl.
  - by destruct (_ !! k).
  - destruct (decide (k = "qualifiedName")) as [->|Hq].
    { by rewrite lookup_insert_eq. }
    rewrite lookup_insert_ne by done.
    destruct (decide (k = "name")) as [->|Hn].
    { by rewrite lookup_singleton_eq. }
    by rewrite lookup_singleton_ne.
Qed.

Lemma filter_promoted (attrs : dict) (qn n : value) :
  filter (λ kv, kv.1 ∉ promoted_keys)
         (attrs ∪ {[ "qualifiedName" := qn; "name" := n ]}) =
  delete "qualifiedName" (delete "name" attrs).
Proof.
  apply map_eq. intros k.
  destruct (decide (k = "qualifiedName")) as [->|Hq].
  { rewrite lookup_delete_eq. apply map_lookup_filter_None. right.
    intros v _ Hnot. apply Hnot. simpl. unfold promoted_keys. set_solver. }
  rewrite lookup_delete_ne by done.
  destruct (decide (k = "name")) as [->|Hn].
  { rewrite lookup_delete_eq. apply map_lookup_filter_None. right.
    intros v _ Hnot. apply Hnot. simpl. unfold promoted_keys. set_solver. }
  rewrite lookup_delete_ne by done.
  destruct (attrs !! k) as [v|] eqn:Hk.
  - apply map_lookup_filter_Some. split.
    + rewrite merged_lookup, Hk. done.
    + simpl. unfold promoted_keys.
      intros [->|[->|[]%elem_of_nil]%elem_of_cons]%elem_of_cons; done.
  - apply map_lookup_filter_None. left.
    rewrite merged_lookup, Hk. by rewrite !decide_False.
Qed.

(** What deserializing a serialized entity gives, field by field. *)
Lemma from_atlas_dict_to_atlas_dict (e : Entity) :
  from_atlas_dict (to_atlas_dict e) =
    Ok {| type_name := type_name e;
          qualified_name := default (qualified_name e) (attributes e !! "qualifiedName");
          name := default (name e) (attributes e !! "name");
          attributes := delete "qualifiedName" (delete "name" (attributes e));
          guid := if truthy (guid e) then guid e else VNone;
          status := status e;
          created_by := VNone; updated_by := VNone;
          create_time := VNone; update_time := VNone |}.
Proof.
  unfold from_atlas_dict.
  rewrite to_atlas_dict_lookup_attributes, to_atlas_dict_lookup_status,
    to_atlas_dict_lookup_typeName, to_atlas_dict_lookup_guid. simpl.
  destruct (status e); simpl.
  all: rewrite filter_promoted, !merged_lookup.
  all: f_equal; f_equal.
  all: try by destruct (attributes e !! "qualifiedName").
  all: try by destruct (attributes e !! "name").
  all: by destruct (truthy (guid e)).
Qed.

(** C2, amended. Serializing an entity built from
    [(type_name, qualified_name, name, attributes)] and deserializing the
    result succeeds and yields an entity with the same [type_name] and with
    the original attributes minus the keys [qualifiedName] and [name]; its
    [qualified_name] (resp. [name]) is the original one unless the original
    attributes have a [qualifiedName] (resp. [name]) key, in which case it is
    the value stored under that key. *)
Theorem entity_round_trip (tn qn n : value) (attrs : dict) :
  ∃ e', from_atlas_dict (to_atlas_dict (Entity_of_fields tn qn n attrs)) = Ok e' ∧
        type_name e' = tn ∧
        qualified_name e' = default qn (attrs !! "qualifiedName") ∧
        name e' = default n (attrs !! "name") ∧
        attributes e' = delete "qualifiedName" (delete "name" attrs).
Proof.
  eexists. split; [apply from_atlas_dict_to_atlas_dict|]. by simpl.
Qed.

(** The round trip is exact on the three fields when the attributes hold
    neither promoted key. *)
Corollary entity_round_trip_fresh (tn qn n : value) (attrs : dict) :
  attrs !! "qualifiedName" = None →
  attrs !! "name" = None →
  from_atlas_dict (to_atlas_dict (Entity_of_fields tn qn n attrs)) =
    Ok (Entity_of_fields tn qn n attrs).
Proof.
  intros Hq Hn. rewrite from_atlas_dict_to_atlas_dict. simpl.
  rewrite Hq, Hn. simpl. unfold Entity_of_fields.
  rewrite (delete_id attrs "name") by done.
  by rewrite (delete_id attrs "qualifiedName").
Qed.

Lemma entity_round_trip_changes_name :
  ∃ e', from_atlas_dict
          (to_atlas_dict (Entity_of_fields (VStr "DataSet") (VStr "demo://orders")
                            (VStr "orders") {[ "name" := VStr "other" ]})) = Ok e' ∧
        name e' ≠ VStr "orders".
Proof.
  eexists. split; [apply from_atlas_dict_to_atlas_dict|].
  vm_compute. discriminate.
Qed.

(** C10. The serialized entity has a [guid] key exactly when the entity's
    guid is truthy, in which case the key holds that guid; an entity whose
    guid is the empty string serializes as one whose guid is [None]; the
    [status] key is always present and holds the string value of the status. *)
Theorem to_atlas_dict_guid_and_status (e : Entity) :
  (is_Some (to_atlas_dict e !! "guid") ↔ truthy (guid e) = true) ∧
  (truthy (guid e) = true → to_atlas_dict e !! "guid" = Some (guid e)) ∧
  to_atlas_dict (with_guid (VStr "") e) = to_atlas_dict (with_guid VNone e) ∧
  to_atlas_dict e !! "status" = Some (VStr (EntityStatus_value (status e))).
Proof.
  rewrite to_atlas_dict_lookup_guid, to_atlas_dict_lookup_status.
  repeat split.
  - destruct (truthy (guid e)); [done | by intros [? ?]].
  - intros ->. eauto.
  - by intros ->.
Qed.

(** ** Qualified names *)

Lemma append_cons (a : ascii) (s t : string) : String a s +:+ t = String a (s +:+ t).
Proof. reflexivity. Qed.

Lemma append_empty_l (t : string) : EmptyString +:+ t = t.
Proof. reflexivity. Qed.

Lemma slash_eqb (a : ascii) : Ascii.eqb a "/" = true ↔ a = "/"%char.
Proof. apply Ascii.eqb_eq. Qed.

Lemma not_ends_with_empty (c : ascii) : ¬ ends_with c EmptyString.
Proof. intros [[|b s'] H]; discriminate. Qed.

Lemma ends_with_cons (c a b : ascii) (s : string) :
  ends_with c (String a (String b s)) → ends_with c (String b s).
Proof.
  intros [[|a' s'] H]; [discriminate|].
  rewrite append_cons in H. injection H as _ H. by exists s'.
Qed.

Lemma ends_with_single (c a : ascii) : ends_with c (String a EmptyString) → a = c.
Proof.
  intros [[|a' s'] H].
  - rewrite append_empty_l in H. by injection H.
  - rewrite append_cons in H. injection H as _ H. destruct s'; discriminate.
Qed.

Lemma lstrip_slashes (s : string) :
  (∃ i, s = slashes i +:+ lstrip "/" s) ∧ ¬ starts_with "/" (lstrip "/" s).
Proof.
  induction s as [|a s [[i Hi] Hno]]; simpl.
  - split; [by exists 0%nat | intros [? ?]; discriminate].
  - destruct (Ascii.eqb a "/") eqn:Ha.
    + apply slash_eqb in Ha as ->. split; [|done].
      exists (S i). simpl. rewrite append_cons. by f_equal.
    + split; [by exists 0%nat|].
      intros [s' [= -> _]]. by rewrite Ascii.eqb_refl in Ha.
Qed.

Lemma rstrip_slashes (s : string) :
  (∃ j, s = rstrip "/" s +:+ slashes j) ∧ ¬ ends_with "/" (rstrip "/" s).
Proof.
  induction s as [|a s [[j Hj] Hno]]; simpl.
  - split; [by exists 0%nat | apply not_ends_with_empty].
  - destruct (rstrip "/" s) as [|b r] eqn:Hr.
    + rewrite append_empty_l in Hj. destruct (Ascii.eqb a "/") eqn:Ha.
      * apply slash_eqb in Ha as ->. split; [|apply not_ends_with_empty].
        exists (S j). rewrite append_empty_l. simpl. by f_equal.
      * split; [exists j; rewrite append_cons, append_empty_l; by f_equal|].
        intros ->%ends_with_single. by rewrite Ascii.eqb_refl in Ha.
    + split; [exists j; rewrite append_cons; by f_equal|].
      intros H%ends_with_cons. by apply Hno.
Qed.

Lemma rstrip_keeps_start (s : string) :
  ¬ starts_with "/" s → ¬ starts_with "/" (rstrip "/" s).
Proof.
  destruct s as [|a s]; simpl; [done|].
  intros Hno. destruct (rstrip "/" s).
  - destruct (Ascii.eqb a "/"); [intros [? ?]; discriminate|].
    intros [s' [= -> _]]. apply Hno. by eexists.
  - intros [s' [= -> _]]. apply Hno. by eexists.
Qed.

(** [strip] removes exactly the slashes at both ends. *)
Lemma strip_trimmed (s : string) : trimmed_of s (strip "/" s).
Proof.
  unfold strip.
  destruct (lstrip_slashes s) as [[i Hi] Hstart].
  destruct (rstrip_slashes (lstrip "/" s)) as [[j Hj] Hend].
  split; [|split; [by apply rstrip_keeps_start | done]].
  exists i, j. by rewrite <- Hj.
Qed.

Lemma append_empty_r (s : string) : s +:+ EmptyString = s.
Proof. induction s as [|a s IH]; [done|]. by rewrite append_cons, IH. Qed.

Lemma lstrip_leading_slashes (i : nat) (u : string) :
  lstrip "/" (slashes i +:+ u) = lstrip "/" u.
Proof.
  induction i as [|i IH]; [done|].
  change (slashes (S i)) with (String "/" (slashes i)).
  rewrite append_cons. simpl. exact IH.
Qed.

Lemma lstrip_fixed (u : string) : ¬ starts_with "/" u → lstrip "/" u = u.
Proof.
  destruct u as [|a u]; simpl; [done|]. intros Hno.
  destruct (Ascii.eqb a "/") eqn:Ha; [|done].
  apply slash_eqb in Ha as ->. destruct Hno. by eexists.
Qed.

Lemma rstrip_trailing_slashes (t : string) (j : nat) :
  rstrip "/" (t +:+ slashes j) = rstrip "/" t.
Proof.
  induction t as [|a t IH].
  - rewrite append_empty_l. induction j as [|j IHj]; [done|].
    simpl. by rewrite IHj.
  - rewrite append_cons. simpl. by rewrite IH.
Qed.

Lemma ends_with_extend (c a : ascii) (t : string) :
  ends_with c t → ends_with c (String a t).
Proof. intros [s' ->]. exists (String a s'). by rewrite append_cons. Qed.

Lemma rstrip_fixed (t : string) : ¬ ends_with "/" t → rstrip "/" t = t.
Proof.
  induction t as [|a t IH]; [done|]. intros Hno. simpl.
  rewrite IH by (intros H; by apply Hno, ends_with_extend).
  destruct t as [|b t]; [|done].
  destruct (Ascii.eqb a "/") eqn:Ha; [|done].
  apply slash_eqb in Ha as ->. destruct Hno. by exists EmptyString.
Qed.

(** Removing the slashes at both ends has one outcome, the one [strip]
    computes. *)
Lemma trimmed_of_strip (s t : string) : trimmed_of s t ↔ t = strip "/" s.
Proof.
  split; [|intros ->; apply strip_trimmed].
  intros [(i & j & ->) [Hstart Hend]]. unfold strip.
  rewrite lstrip_leading_slashes.
  destruct t as [|a t].
  - rewrite append_empty_l.
    rewrite <- (append_empty_r (slashes j)), lstrip_leading_slashes. done.
  - rewrite lstrip_fixed.
    + by rewrite rstrip_trailing_slashes, rstrip_fixed.
    + rewrite append_cons. intros [s' [= -> _]]. apply Hstart. by eexists.
Qed.

Lemma clean_parts_kept (parts : list (option string)) :
  map (λ p, strip "/" (part_str p)) (List.filter part_truthy parts) =
  map (strip "/") (kept_parts parts).
Proof.
  induction parts as [|[[|a s]|] parts IH]; simpl; try done.
  by rewrite IH.
Qed.

Lemma create_qualified_name_skip (self : BaseConnector)
    (before after : list (option string)) (p : option string) :
  part_truthy p = false →
  create_qualified_name self (before ++ p :: after) =
  create_qualified_name self (before ++ after).
Proof.
  intros Hp. unfold create_qualified_name.
  rewrite !List.filter_app. simpl. by rewrite Hp.
Qed.



(** ** Database connector *)

(** A loop that only appends to its accumulator collects, in order, what
    each iteration appends. *)
Lemma foldl_appending {A B} (g : list B → A → list B) (h : A → list B)
    (acc : list B) (l : list A) :
  (∀ acc x, g acc x = acc ++ h x) →
  foldl g acc l = acc ++ concat (map h l).
Proof.
  intros Hg. revert acc. induction l as [|x l IH]; intros acc; simpl.
  - by rewrite app_nil_r.
  - by rewrite IH, Hg, <- app_assoc.
Qed.

(** The transformation emits the database entity, then, schema by schema
    and table by table, each table entity followed by its column entities. *)
Lemma DatabaseConnector_transform_order (self : DatabaseConnector)
    (metadata : DatabaseMetadata) :
  DatabaseConnector_transform_to_atlas self metadata =
    db_entity self (default "unknown" (database_name metadata))
    :: concat (map (schema_entities self (default "unknown" (database_name metadata)))
                   (default [] (schemas metadata))).
Proof.
  unfold DatabaseConnector_transform_to_atlas.
  rewrite (foldl_appending _
             (schema_entities self (default "unknown" (database_name metadata))));
    [done|].
  intros acc schema. unfold schema_entities.
  rewrite (foldl_appending _
             (table_entities self (default "unknown" (database_name metadata))
                (schema_name schema))); [done|].
  intros acc' table. unfold table_entities.
  rewrite (foldl_appending _
             (λ column, [column_entity self
                           (default "unknown" (database_name metadata))
                           (schema_name schema) (table_name table) column])).
  - rewrite <- app_assoc. simpl. f_equal. f_equal.
    induction (default [] (table_columns table)) as [|c l IH]; simpl; [done|].
    by rewrite IH.
  - done.
Qed.

(** Every emitted entity passes validation. *)
Lemma db_entities_valid (self : DatabaseConnector) (metadata : DatabaseMetadata) :
  validate_entities (DatabaseConnector_transform_to_atlas self metadata) = Ok true.
Proof.
  apply validate_entities_ok_iff. rewrite DatabaseConnector_transform_order.
  constructor; [reflexivity|].
  apply Forall_concat, Forall_map, Forall_forall. intros schema _.
  apply Forall_concat, Forall_map, Forall_forall. intros table _.
  constructor; [reflexivity|].
  apply Forall_map, Forall_forall. intros column _. reflexivity.
Qed.

(** C5. For metadata with the one schema [dbo] holding the one table
    [customers] with the columns [id], [name] and [email], the transformation
    yields exactly five entities in the order database, table, column [id],
    column [name], column [email]; this is the metadata [extract_metadata]
    returns, and whenever the client's bulk-create answers with a mapping the
    summary of [scan_and_ingest] has [entities_extracted] equal to 5. *)
Theorem database_scenario (self : DatabaseConnector) (db : option string) :
  DatabaseConnector_transform_to_atlas self
    {| database_name := db; schemas := Some customers_schemas |} =
    [ db_entity self (default "unknown" db);
      table_entity self (default "unknown" db) "dbo" "customers";
      column_entity self (default "unknown" db) "dbo" "customers"
        {| column_name := "id"; column_type := "int"; column_nullable := Some false |};
      column_entity self (default "unknown" db) "dbo" "customers"
        {| column_name := "name"; column_type := "varchar"; column_nullable := Some false |};
      column_entity self (default "unknown" db) "dbo" "customers"
        {| column_name := "email"; column_type := "varchar"; column_nullable := Some true |} ] ∧
  entity_label <$> DatabaseConnector_transform_to_atlas self
                     {| database_name := db; schemas := Some customers_schemas |} =
    [ Some (VStr "rdbms_db", VStr (default "unknown" db));
      Some (VStr "rdbms_table", VStr "customers");
      Some (VStr "rdbms_column", VStr "id");
      Some (VStr "rdbms_column", VStr "name");
      Some (VStr "rdbms_column", VStr "email") ] ∧
  DatabaseConnector_extract_metadata self =
    {| database_name := Some "sample_database"; schemas := Some customers_schemas |} ∧
  (∀ (log : call_log) (response : dict),
     bulk_create_entities (purview_client (db_base self))
       (DatabaseConnector_transform_to_atlas self
          (DatabaseConnector_extract_metadata self)) = Ok (VDict response) →
     ∃ summary,
       scan_and_ingest self log =
         (Ok summary,
          log ++ [DatabaseConnector_transform_to_atlas self
                    (DatabaseConnector_extract_metadata self)]) ∧
       entities_extracted summary = 5).
Proof.
  split; [reflexivity|]. split; [reflexivity|]. split; [reflexivity|].
  intros log response Hresponse.
  eexists. split.
  - apply (scan_succeeds self log
             (DatabaseConnector_extract_metadata self)
             (DatabaseConnector_transform_to_atlas self
                (DatabaseConnector_extract_metadata self))
             response); [reflexivity | reflexivity | | exact Hresponse].
    apply db_entities_valid.
  - reflexivity.
Qed.

Lemma database_scenario_witness :
  ∃ summary,
    scan_and_ingest sample_database_connector [] =
      (Ok summary,
       [] ++ [DatabaseConnector_transform_to_atlas sample_database_connector
                (DatabaseConnector_extract_metadata sample_database_connector)]) ∧
    entities_extracted summary = 5.
Proof.
  apply (proj2 (proj2 (proj2 (database_scenario sample_database_connector None)))
           [] {[ "entities_created" := VInt 5; "status" := VStr "success" ]}).
  vm_compute. reflexivity.
Defined.

(** ** Filesystem connector *)




Lemma scan_item_step (self : FileSystemConnector) (item : PathItem)
    (fs0 : list FileRecord) (ds0 : list DirectoryRecord) :
  scan_item self (fs0, ds0) item =
    (fs0 ++ (if keeps_file self item then [file_record item] else []),
     ds0 ++ (if is_dir item then [directory_record item] else [])).
Proof.
  unfold scan_item, keeps_file, is_file, is_dir.
  destruct (item_kind item), (extensions_truthy (file_extensions self));
    simpl; try destruct (bool_decide _); simpl; by rewrite ?app_nil_r.
Qed.

(** The loop over [glob]: the files kept and the directories, in order. *)
Lemma scan_items (self : FileSystemConnector) (items : list PathItem)
    (fs0 : list FileRecord) (ds0 : list DirectoryRecord) :
  foldl (scan_item self) (fs0, ds0) items =
    (fs0 ++ map file_record (List.filter (keeps_file self) items),
     ds0 ++ map directory_record (List.filter is_dir items)).
Proof.
  revert fs0 ds0. induction items as [|item items IH]; intros fs0 ds0.
  - simpl. by rewrite !app_nil_r.
  - cbn [foldl List.filter]. rewrite scan_item_step, IH.
    destruct (keeps_file self item), (is_dir item); simpl;
      by rewrite <- ?app_assoc, ?app_nil_r.
Qed.

Lemma FileSystemConnector_extract_existing (fs : FileSystem) (self : FileSystemConnector) :
  path_exists fs (root_path self) = true →
  FileSystemConnector_extract_metadata fs self =
    Ok {| md_root_path := Some (root_path self);
          files := map file_record
                     (List.filter (keeps_file self)
                        (glob fs (root_path self)
                           (if recursive self then "**/*" else "*")));
          directories := map directory_record
                     (List.filter is_dir
                        (glob fs (root_path self)
                           (if recursive self then "**/*" else "*"))) |}.
Proof.
  intros Hex. unfold FileSystemConnector_extract_metadata. rewrite Hex. simpl.
  by rewrite scan_items.
Qed.

(** C3, at the input on which the code departs from it. With the allow-list
    [[".CSV"]], the file [report.CSV], whose extension is in the list as
    written and so in particular up to letter case, is left out of the files;
    the directory [sub] is listed. *)
Theorem upper_case_allow_list_excludes_match :
  case_insensitive_member (suffix report_item) [".CSV"] ∧
  FileSystemConnector_extract_metadata data_fs upper_case_connector =
    Ok {| md_root_path := Some "data";
          files := [];
          directories := [directory_record sub_item] |}.
Proof.
  split.
  - exists ".CSV". split; [apply list_elem_of_In; simpl; tauto | reflexivity].
  - vm_compute. reflexivity.
Qed.

(** C8. When the root path does not exist, extraction returns a result with
    no files and no directories, and does not raise. *)
Theorem missing_root_yields_empty (fs : FileSystem) (self : FileSystemConnector) :
  path_exists fs (root_path self) = false →
  ∃ metadata,
    FileSystemConnector_extract_metadata fs self = Ok metadata ∧
    files metadata = [] ∧ directories metadata = [].
Proof.
  intros Hmissing. unfold FileSystemConnector_extract_metadata.
  rewrite Hmissing. simpl. eauto.
Qed.

Lemma missing_root_yields_empty_witness :
  ∃ metadata,
    FileSystemConnector_extract_metadata data_fs missing_root_connector = Ok metadata ∧
    files metadata = [] ∧ directories metadata = [].
Proof.
  apply (missing_root_yields_empty data_fs missing_root_connector).
  vm_compute. reflexivity.
Defined.

(** * Further properties of the pipeline *)

(** ** Validation and ingestion *)

Lemma validate_entities_app (es1 es2 : list value) :
  validate_entities (es1 ++ es2) =
    match validate_entities es1 with
    | Ok _ => validate_entities es2
    | Raise x => Raise x
    end.
Proof.
  induction es1 as [|e es1 IH]; [done|].
  rewrite <- app_comm_cons, !validate_entities_cons.
  by destruct (validate_entity e).
Qed.

(** X1. Validating two batches one after the other is validating their
    concatenation: the joined batch passes exactly when both pass, and
    otherwise fails with the exception of the first batch that fails. *)
Theorem validate_entities_concat (es1 es2 : list value) :
  (validate_entities (es1 ++ es2) = Ok true ↔
     validate_entities es1 = Ok true ∧ validate_entities es2 = Ok true) ∧
  (∀ x, validate_entities es1 = Raise x → validate_entities (es1 ++ es2) = Raise x) ∧
  (∀ x, validate_entities es1 = Ok true → validate_entities es2 = Raise x →
        validate_entities (es1 ++ es2) = Raise x).
Proof.
  rewrite validate_entities_app. split; [split|split].
  - destruct (validate_entities_cases es1) as [H1|[x H1]]; rewrite H1;
      [done | discriminate].
  - by intros [-> ->].
  - by intros x ->.
  - by intros x -> ->.
Qed.

Lemma validate_entity_exceptions (e : value) (x : exn) :
  validate_entity e = Raise x →
  x = TypeError ∨ x = AttributeError ∨
  ∃ msg, x = SdkError PurviewConnectorError msg e.
Proof.
  unfold validate_entity.
  destruct (contains e "typeName") as [[]|x1] eqn:H1; simpl;
    [| intros [= <-]; eauto
     | apply contains_raises in H1 as ->; intros [= <-]; eauto].
  destruct (contains e "attributes") as [[]|x2] eqn:H2; simpl;
    [| intros [= <-]; eauto
     | apply contains_raises in H2 as ->; intros [= <-]; eauto].
  destruct (dict_get e "attributes" (VDict ∅)) as [a|x3] eqn:H3; simpl;
    [| apply dict_get_raises in H3 as ->; intros [= <-]; eauto].
  destruct (contains a "qualifiedName") as [[]|x4] eqn:H4; simpl;
    [ discriminate
    | intros [= <-]; eauto
    | apply contains_raises in H4 as ->; intros [= <-]; eauto].
Qed.

(** X2. The only exceptions [validate_entities] raises are [TypeError],
    [AttributeError] and the base [PurviewConnectorError] carrying an entity
    of the batch; in particular it never raises [ValidationError]. *)
Theorem validate_entities_exceptions (es : list value) (x : exn) :
  validate_entities es = Raise x →
  x = TypeError ∨ x = AttributeError ∨
  ∃ msg e, e ∈ es ∧ x = SdkError PurviewConnectorError msg e.
Proof.
  induction es as [|e es IH]; [discriminate|].
  rewrite validate_entities_cons.
  destruct (validate_entity e) as [[]|y] eqn:He.
  - intros H. destruct (IH H) as [?|[?|(msg & e' & Hin & ->)]]; auto.
    right. right. exists msg, e'. split; [by apply list_elem_of_further | done].
  - intros [= <-].
    destruct (validate_entity_exceptions e y He) as [?|[?|[msg ->]]]; auto.
    right. right. exists msg, e. split; [apply list_elem_of_here | done].
Qed.

Lemma validate_entities_exceptions_witness :
  SdkError PurviewConnectorError "Entity missing qualifiedName: "
    (VDict record_unqualified) = TypeError ∨
  SdkError PurviewConnectorError "Entity missing qualifiedName: "
    (VDict record_unqualified) = AttributeError ∨
  ∃ msg e, e ∈ [VDict record_unqualified] ∧
    SdkError PurviewConnectorError "Entity missing qualifiedName: "
      (VDict record_unqualified) = SdkError PurviewConnectorError msg e.
Proof.
  apply (validate_entities_exceptions [VDict record_unqualified]).
  vm_compute. reflexivity.
Defined.

(** X3. A record that has a [typeName] key and whose [attributes] value is
    [None], a boolean or a number is not reported as missing
    [qualifiedName]: the check applies [in] to that value and the batch ends
    with [TypeError]. *)
Theorem validate_entities_attributes_not_iterable (d : dict) (a : value)
    (rest : list value) :
  is_Some (d !! "typeName") →
  d !! "attributes" = Some a →
  not_iterable a →
  validate_entities (VDict d :: rest) = Raise TypeError.
Proof.
  intros Ht Ha Hnot. rewrite validate_entities_cons.
  unfold validate_entity. simpl.
  rewrite bool_decide_eq_true_2 by done. simpl.
  rewrite bool_decide_eq_true_2 by (rewrite Ha; eauto). simpl.
  rewrite Ha. simpl. by destruct a.
Qed.

Lemma validate_entities_attributes_not_iterable_witness :
  validate_entities (VDict record_null_attributes :: [VDict record_complete]) =
    Raise TypeError.
Proof.
  apply (validate_entities_attributes_not_iterable record_null_attributes VNone).
  - vm_compute. eauto.
  - vm_compute. reflexivity.
  - exact I.
Defined.

(** X4. [ingest_to_purview] invokes the client's bulk-create at most once:
    once, with the whole batch, returning the client's outcome as it is, when
    the batch passes validation; not at all when validation raises. *)
Theorem ingest_to_purview_invocations (self : BaseConnector) (es : list value)
    (log : call_log) :
  (validate_entities es = Ok true ∧
   ingest_to_purview self es log =
     (bulk_create_entities (purview_client self) es, log ++ [es])) ∨
  (∃ x, validate_entities es = Raise x ∧
        ingest_to_purview self es log = (Raise x, log)).
Proof.
  destruct (validate_entities_cases es) as [Hok|[x Hx]].
  - left. split; [done | by apply ingest_to_purview_valid].
  - right. exists x. split; [done | by apply ingest_to_purview_invalid].
Qed.

(** ** Composition of qualified names *)

Lemma string_app_assoc (s1 s2 s3 : string) : (s1 +:+ s2) +:+ s3 = s1 +:+ s2 +:+ s3.
Proof.
  induction s1 as [|a s1 IH]; [done|]. rewrite !append_cons. by rewrite IH.
Qed.

Lemma join_cons_cons (sep x y : string) (l : list string) :
  join sep (x :: y :: l) = x +:+ sep +:+ join sep (y :: l).
Proof. reflexivity. Qed.

Lemma join_snoc (sep x : string) (l : list string) :
  l ≠ [] → join sep (l ++ [x]) = join sep l +:+ sep +:+ x.
Proof.
  induction l as [|y l IH]; [done|]. intros _.
  destruct l as [|y' l]; [reflexivity|].
  change (join sep ((y :: y' :: l) ++ [x]))
    with (y +:+ sep +:+ join sep ((y' :: l) ++ [x])).
  rewrite IH by done. by rewrite join_cons_cons, !string_app_assoc.
Qed.

Lemma kept_parts_app (l1 l2 : list (option string)) :
  kept_parts (l1 ++ l2) = kept_parts l1 ++ kept_parts l2.
Proof.
  induction l1 as [|[[|a s]|] l1 IH]; simpl; try done. by rewrite IH.
Qed.

Lemma kept_parts_single (p : option string) :
  kept_parts [p] = if part_truthy p then [part_str p] else [].
Proof. by destruct p as [[|a s]|]. Qed.

Lemma create_qualified_name_kept (self : BaseConnector) (parts : list (option string)) :
  create_qualified_name self parts =
    qualified_name_prefix self +:+ join "/" (map (strip "/") (kept_parts parts)).
Proof. unfold create_qualified_name. by rewrite clean_parts_kept. Qed.

Lemma create_qualified_name_snoc (self : BaseConnector)
    (parts : list (option string)) (p : option string) :
  part_truthy p = true →
  kept_parts parts ≠ [] →
  create_qualified_name self (parts ++ [p]) =
    create_qualified_name self parts +:+ "/" +:+ strip "/" (part_str p).
Proof.
  intros Hp Hkept. rewrite !create_qualified_name_kept.
  rewrite kept_parts_app, kept_parts_single, Hp, map_app. simpl.
  rewrite join_snoc by (by destruct (kept_parts parts)).
  by rewrite string_app_assoc.
Qed.

(** X5. Appending one more part to a qualified name: a falsy part changes
    nothing; a truthy part after at least one kept part adds a slash and the
    part without its outer slashes; a truthy part with no kept part before it
    is put, without its outer slashes, right after the prefix. *)
Theorem create_qualified_name_append (self : BaseConnector)
    (parts : list (option string)) (p : option string) :
  (part_truthy p = false →
   create_qualified_name self (parts ++ [p]) = create_qualified_name self parts) ∧
  (part_truthy p = true → kept_parts parts ≠ [] →
   create_qualified_name self (parts ++ [p]) =
     create_qualified_name self parts +:+ "/" +:+ strip "/" (part_str p)) ∧
  (part_truthy p = true → kept_parts parts = [] →
   create_qualified_name self parts = qualified_name_prefix self ∧
   create_qualified_name self (parts ++ [p]) =
     qualified_name_prefix self +:+ strip "/" (part_str p)).
Proof.
  split; [|split].
  - intros Hp. rewrite !create_qualified_name_kept.
    by rewrite kept_parts_app, kept_parts_single, Hp, app_nil_r.
  - apply create_qualified_name_snoc.
  - intros Hp Hkept. rewrite !create_qualified_name_kept.
    rewrite kept_parts_app, kept_parts_single, Hp, Hkept. simpl.
    split; [apply append_empty_r | done].
Qed.

Lemma starts_with_app (c : ascii) (a u : string) :
  a ≠ EmptyString → starts_with c (a +:+ u) → starts_with c a.
Proof.
  destruct a as [|x a]; [done|]. intros _ [s' H].
  rewrite append_cons in H. injection H as -> _. by eexists.
Qed.

Lemma ends_with_app (c : ascii) (s t : string) :
  t ≠ EmptyString → ends_with c (s +:+ t) → ends_with c t.
Proof.
  intros Ht. induction s as [|x s IH]; [done|].
  intros [[|x' s'] H]; rewrite !append_cons in H.
  - rewrite append_empty_l in H. injection H as _ H.
    destruct s; [by rewrite append_empty_l in H | discriminate].
  - injection H as _ H. apply IH. by exists s'.
Qed.

Lemma strip_fixed (s : string) :
  ¬ starts_with "/" s → ¬ ends_with "/" s → strip "/" s = s.
Proof.
  intros Hstart Hend. symmetry. apply trimmed_of_strip.
  split; [|done]. exists 0%nat, 0%nat. simpl.
  by rewrite append_empty_l, append_empty_r.
Qed.

(** X6. Slashes inside a part are kept, so a qualified name does not record
    where one part ends and the next begins: for two non-empty segments
    without outer slashes, the single part ["a/b"] and the two parts ["a"],
    ["b"] give the same qualified name. *)
Theorem create_qualified_name_inner_slash (self : BaseConnector) (a b : string) :
  a ≠ "" → b ≠ "" →
  ¬ starts_with "/" a → ¬ ends_with "/" a →
  ¬ starts_with "/" b → ¬ ends_with "/" b →
  create_qualified_name self [Some (a +:+ "/" +:+ b)] =
  create_qualified_name self [Some a; Some b].
Proof.
  intros Ha Hb Hsa Hea Hsb Heb. rewrite !create_qualified_name_kept.
  destruct a as [|x a]; [done|]. destruct b as [|y b]; [done|].
  rewrite append_cons. simpl. rewrite <- append_cons.
  rewrite (strip_fixed (String x a)), (strip_fixed (String y b)) by done.
  rewrite strip_fixed; [done | |].
  - intros H. by apply starts_with_app in H.
  - intros H. apply ends_with_app in H; [|done].
    apply (ends_with_app _ "/") in H; done.
Qed.

Lemma create_qualified_name_inner_slash_witness :
  create_qualified_name sample_base [Some ("sales" +:+ "/" +:+ "orders")] =
  create_qualified_name sample_base [Some "sales"; Some "orders"].
Proof.
  apply (create_qualified_name_inner_slash sample_base "sales" "orders").
  - discriminate.
  - discriminate.
  - intros [s' H]. discriminate.
  - intros H. apply (ends_with_app _ "sale" "s") in H; [|discriminate].
    destruct H as [[|c s'] H]; [discriminate|].
    rewrite append_cons in H. injection H as _ H. destruct s'; discriminate.
  - intros [s' H]. discriminate.
  - intros H. apply (ends_with_app _ "order" "s") in H; [|discriminate].
    destruct H as [[|c s'] H]; [discriminate|].
    rewrite append_cons in H. injection H as _ H. destruct s'; discriminate.
Defined.

(** ** Database transformation *)

Lemma length_concat_map {A B} (f : A → list B) (l : list A) :
  length (concat (map f l)) = sum_list (map (λ x, length (f x)) l).
Proof.
  induction l as [|x l IH]; simpl; [done|]. by rewrite length_app, IH.
Qed.

Lemma table_entities_length (self : DatabaseConnector) (db_name sch_name : string)
    (table : TableMetadata) :
  length (table_entities self db_name sch_name table) = table_count table.
Proof. unfold table_entities, table_count. simpl. by rewrite length_map. Qed.

Lemma schema_entities_length (self : DatabaseConnector) (db_name : string)
    (schema : SchemaMetadata) :
  length (schema_entities self db_name schema) = schema_count schema.
Proof.
  unfold schema_entities, schema_count. rewrite length_concat_map.
  f_equal. apply map_ext. intros table. apply table_entities_length.
Qed.

(** X7. Whatever the metadata, the database transformation emits the
    database entity first and then, schema by schema and table by table, each
    table entity directly followed by the entities of its columns; the batch
    has one entity for the database, one per table and one per column. *)
Theorem DatabaseConnector_transform_shape (self : DatabaseConnector)
    (metadata : DatabaseMetadata) :
  DatabaseConnector_transform_to_atlas self metadata =
    db_entity self (default "unknown" (database_name metadata))
    :: concat (map (schema_entities self (default "unknown" (database_name metadata)))
                   (default [] (schemas metadata))) ∧
  length (DatabaseConnector_transform_to_atlas self metadata) =
    S (sum_list (map schema_count (default [] (schemas metadata)))).
Proof.
  rewrite DatabaseConnector_transform_order. split; [done|].
  simpl. f_equal. rewrite length_concat_map.
  f_equal. apply map_ext. intros schema. apply schema_entities_length.
Qed.

Lemma column_entity_qualified_name (self : DatabaseConnector)
    (db_name sch_name tbl_name : string) (column : ColumnMetadata) :
  entity_qualified_name (column_entity self db_name sch_name tbl_name column) =
    Some (VStr (create_qualified_name (db_base self)
                  ([Some db_name; Some sch_name; Some tbl_name]
                   ++ [Some (column_name column)]))).
Proof.
  unfold column_entity, entity_qualified_name.
  rewrite lookup_insert_ne by done. rewrite lookup_singleton_eq.
  by rewrite lookup_insert_eq.
Qed.

(** X8. For a table with a non-empty name, the qualified name of a column
    entity is the qualified name of the table entity followed by a slash and
    the column name without its outer slashes; a column whose name is the
    empty string gets the very qualified name of its table. *)
Theorem column_qualified_name_extends_table (self : DatabaseConnector)
    (db_name sch_name tbl_name : string) (column : ColumnMetadata) :
  tbl_name ≠ "" →
  ∃ table_qn,
    entity_qualified_name (table_entity self db_name sch_name tbl_name) =
      Some (VStr table_qn) ∧
    entity_qualified_name (column_entity self db_name sch_name tbl_name column) =
      Some (VStr (if decide (column_name column = "") then table_qn
                  else table_qn +:+ "/" +:+ strip "/" (column_name column))).
Proof.
  intros Htbl. eexists. split; [reflexivity|].
  rewrite column_entity_qualified_name. do 2 f_equal.
  case_decide as Hcol.
  - rewrite Hcol.
    apply (create_qualified_name_skip (db_base self)
             [Some db_name; Some sch_name; Some tbl_name] [] (Some "")).
    reflexivity.
  - apply create_qualified_name_snoc.
    + simpl. by destruct (column_name column).
    + by destruct db_name, sch_name, tbl_name.
Qed.

Lemma column_qualified_name_extends_table_witness :
  ∃ table_qn,
    entity_qualified_name
      (table_entity sample_database_connector "sample_database" "dbo" "customers") =
      Some (VStr table_qn) ∧
    entity_qualified_name
      (column_entity sample_database_connector "sample_database" "dbo" "customers"
         sample_column) =
      Some (VStr (if decide (column_name sample_column = "") then table_qn
                  else table_qn +:+ "/" +:+ strip "/" (column_name sample_column))).
Proof.
  apply (column_qualified_name_extends_table sample_database_connector
           "sample_database" "dbo" "customers" sample_column).
  discriminate.
Defined.

(** ** Filesystem extraction *)


Lemma keeps_file_unfiltered (self : FileSystemConnector) (item : PathItem) :
  extensions_truthy (file_extensions self) = false →
  keeps_file self item = is_file item.
Proof. intros H. unfold keeps_file. rewrite H. simpl. apply andb_true_r. Qed.




(** X10. Directories are never filtered: for an existing root, the
    directories listed are all the directories found by the scan, in the
    order found, whatever the allow-list. *)
Theorem directories_never_filtered (fs : FileSystem) (self : FileSystemConnector) :
  path_exists fs (root_path self) = true →
  ∃ metadata,
    FileSystemConnector_extract_metadata fs self = Ok metadata ∧
    md_root_path metadata = Some (root_path self) ∧
    directories metadata =
      map directory_record
        (List.filter is_dir
           (glob fs (root_path self) (if recursive self then "**/*" else "*"))).
Proof.
  intros Hex. eexists. split; [by apply FileSystemConnector_extract_existing|]. done.
Qed.

Lemma directories_never_filtered_witness :
  ∃ metadata,
    FileSystemConnector_extract_metadata data_fs upper_case_connector = Ok metadata ∧
    md_root_path metadata = Some (root_path upper_case_connector) ∧
    directories metadata =
      map directory_record
        (List.filter is_dir
           (glob data_fs (root_path upper_case_connector)
              (if recursive upper_case_connector then "**/*" else "*"))).
Proof.
  apply (directories_never_filtered data_fs upper_case_connector).
  vm_compute. reflexivity.
Defined.

(** X11. An empty allow-list filters nothing, like no allow-list at all:
    every regular file found by the scan is listed, in the order found, and
    what is neither a regular file nor a directory is dropped. *)
Theorem empty_allow_list_keeps_every_file (fs : FileSystem) (self : FileSystemConnector) :
  path_exists fs (root_path self) = true →
  file_extensions self = None ∨ file_extensions self = Some [] →
  ∃ metadata,
    FileSystemConnector_extract_metadata fs self = Ok metadata ∧
    files metadata =
      map file_record
        (List.filter is_file
           (glob fs (root_path self) (if recursive self then "**/*" else "*"))).
Proof.
  intros Hex Hexts. eexists. split; [by apply FileSystemConnector_extract_existing|].
  simpl. f_equal. apply List.filter_ext. intros item.
  apply keeps_file_unfiltered. by destruct Hexts as [-> | ->].
Qed.

Lemma empty_allow_list_keeps_every_file_witness :
  ∃ metadata,
    FileSystemConnector_extract_metadata data_fs unfiltered_connector = Ok metadata ∧
    files metadata =
      map file_record
        (List.filter is_file
           (glob data_fs (root_path unfiltered_connector)
              (if recursive unfiltered_connector then "**/*" else "*"))).
Proof.
  apply (empty_allow_list_keeps_every_file data_fs unfiltered_connector).
  - vm_compute. reflexivity.
  - right. reflexivity.
Defined.

(** ** Filesystem scan *)

(** X12. A missing root is not an empty scan: extraction returns no files
    and no directories, yet the transformation still emits the root entity,
    with the bare prefix as qualified name and an empty name and path, and
    with the stub client the run reports one entity extracted and created. *)
Theorem missing_root_still_ingests_root (fs : FileSystem)
    (self : FileSystemConnector) (log : call_log) :
  path_exists fs (root_path self) = false →
  purview_client (fs_base self) = PurviewClient →
  FileSystemConnector_scan_and_ingest fs self log =
    (Ok {| summary_status := "success";
           entities_extracted := 1;
           entities_created := VInt 1;
           summary_metadata :=
             {| md_root_path := None; files := []; directories := [] |} |},
     log ++ [[fs_root_entity self ""]]) ∧
  entity_label (fs_root_entity self "") = Some (VStr "fs_path", VStr "") ∧
  entity_qualified_name (fs_root_entity self "") =
    Some (VStr (qualified_name_prefix (fs_base self))).
Proof.
  intros Hmissing Hclient. split; [|split].
  - unfold FileSystemConnector_scan_and_ingest.
    rewrite (scan_succeeds (Connector0 := FileSystemConnector_Connector fs)
               self log {| md_root_path := None; files := []; directories := [] |}
               [fs_root_entity self ""]
               {[ "entities_created" := VInt 1; "status" := VStr "success" ]}).
    + by rewrite lookup_insert_eq.
    + simpl. unfold FileSystemConnector_extract_metadata. by rewrite Hmissing.
    + reflexivity.
    + reflexivity.
    + simpl. rewrite Hclient. reflexivity.
  - reflexivity.
  - unfold fs_root_entity, entity_qualified_name.
    rewrite lookup_insert_ne by done. rewrite lookup_singleton_eq.
    rewrite lookup_insert_eq. do 2 f_equal.
    rewrite create_qualified_name_kept. simpl. apply append_empty_r.
Qed.

Lemma missing_root_still_ingests_root_witness :
  FileSystemConnector_scan_and_ingest data_fs missing_root_connector [] =
    (Ok {| summary_status := "success";
           entities_extracted := 1;
           entities_created := VInt 1;
           summary_metadata :=
             {| md_root_path := None; files := []; directories := [] |} |},
     [] ++ [[fs_root_entity missing_root_connector ""]]) ∧
  entity_label (fs_root_entity missing_root_connector "") =
    Some (VStr "fs_path", VStr "") ∧
  entity_qualified_name (fs_root_entity missing_root_connector "") =
    Some (VStr (qualified_name_prefix (fs_base missing_root_connector))).
Proof.
  apply (missing_root_still_ingests_root data_fs missing_root_connector []).
  - vm_compute. reflexivity.
  - reflexivity.
Defined.

(** ** Entities on the wire *)

Lemma EntityStatus_lookup_ok (v : option value) :
  absent_or_status v ↔ ∃ st, EntityStatus_lookup (default (VStr "ACTIVE") v) = Ok st.
Proof.
  unfold absent_or_status. split.
  - intros [-> | [-> | ->]]; simpl; eauto.
  - intros [st Hst]. destruct v as [ [ | | | s | | ] | ]; simpl in Hst; try discriminate; auto.
    destruct (String.eqb_spec s "ACTIVE") as [->|]; [auto|].
    destruct (String.eqb_spec s "DELETED") as [->|]; [auto | discriminate].
Qed.

Lemma EntityStatus_lookup_cases (v : value) :
  (∃ st, EntityStatus_lookup v = Ok st) ∨ EntityStatus_lookup v = Raise ValueError.
Proof.
  destruct v as [ | | | s | | ]; simpl; auto.
  destruct (String.eqb s "ACTIVE"); [eauto|].
  destruct (String.eqb s "DELETED"); eauto.
Qed.

(** X13. Every serialized entity passes validation, whatever its fields: a
    batch of [to_atlas_dict] results is never rejected by
    [validate_entities]. *)
Theorem serialized_entities_pass_validation (entities : list Entity) :
  validate_entities (map (λ e, VDict (to_atlas_dict e)) entities) = Ok true.
Proof.
  apply validate_entities_ok_iff, Forall_map, Forall_forall. intros e _.
  apply validate_entity_ok_iff. eexists. eexists. split; [reflexivity|].
  rewrite to_atlas_dict_lookup_typeName, to_atlas_dict_lookup_attributes.
  split; [eauto|]. split; [reflexivity|]. simpl. f_equal.
  apply bool_decide_eq_true_2. rewrite merged_lookup.
  destruct (attributes e !! "qualifiedName"); eauto.
Qed.

(** X14. [from_atlas_dict] succeeds exactly when the [attributes] key is
    absent or holds a mapping and the [status] key is absent or holds
    ["ACTIVE"] or ["DELETED"]; a bad [attributes] gives [AttributeError], and
    otherwise a bad [status] gives [ValueError]. *)
Theorem from_atlas_dict_outcomes (data : dict) :
  ((∃ e, from_atlas_dict data = Ok e) ↔
     absent_or_mapping (data !! "attributes") ∧ absent_or_status (data !! "status")) ∧
  (¬ absent_or_mapping (data !! "attributes") →
     from_atlas_dict data = Raise AttributeError) ∧
  (absent_or_mapping (data !! "attributes") →
   ¬ absent_or_status (data !! "status") →
     from_atlas_dict data = Raise ValueError).
Proof.
  unfold from_atlas_dict.
  destruct (data !! "attributes") as [a|] eqn:Ha; [destruct a|]; simpl.
  1-5: split; [split; [intros [e He]; discriminate | intros [[] _]]
              | split; [done | intros []]].
  all: destruct (EntityStatus_lookup_cases (default (VStr "ACTIVE") (data !! "status")))
         as [[st Hst]|Hst]; rewrite Hst; simpl.
  all: split; [split | split; [intros H; destruct H; exact I |]].
  - intros _. split; [exact I | apply EntityStatus_lookup_ok; eauto].
  - intros _. eauto.
  - intros _ Hbad. destruct Hbad. apply EntityStatus_lookup_ok. eauto.
  - intros [e He]. discriminate.
  - intros [_ [st' Hst']%EntityStatus_lookup_ok]. congruence.
  - done.
  - intros _. split; [exact I | apply EntityStatus_lookup_ok; eauto].
  - intros _. eauto.
  - intros _ Hbad. destruct Hbad. apply EntityStatus_lookup_ok. eauto.
  - intros [e He]. discriminate.
  - intros [_ [st' Hst']%EntityStatus_lookup_ok]. congruence.
  - done.
Qed.

(** ** Relationships on the wire *)

Lemma Relationship_to_atlas_dict_lookup (self : Relationship) (k : string) :
  Relationship_to_atlas_dict self !! k =
    if decide (k = "attributes")
    then (if truthy (rel_attributes self) then Some (rel_attributes self) else None)
    else if decide (k = "guid")
    then (if truthy (rel_guid self) then Some (rel_guid self) else None)
    else if decide (k = "typeName") then Some (rel_type_name self)
    else if decide (k = "end1") then Some (VDict {[ "guid" := end1_guid self ]})
    else if decide (k = "end2") then Some (VDict {[ "guid" := end2_guid self ]})
    else if decide (k = "status")
    then Some (VStr (RelationshipStatus_value (rel_status self)))
    else None.
Proof.
  unfold Relationship_to_atlas_dict.
  destruct (truthy (rel_attributes self)), (truthy (rel_guid self));
    repeat (rewrite lookup_insert; case_decide; [subst; by repeat case_decide|]);
    rewrite ?lookup_singleton; repeat case_decide; subst; done.
Qed.

Lemma Relationship_new_fields (tn e1 e2 g : value) (st : RelationshipStatus)
    (attrs : value) :
  Relationship_new tn e1 e2 g st attrs =
    {| rel_type_name := tn; end1_guid := e1; end2_guid := e2; rel_guid := g;
       rel_status := st;
       rel_attributes := match attrs with VNone => VDict ∅ | _ => attrs end |}.
Proof. by destruct attrs. Qed.

(** X15. Serializing a relationship and deserializing the result succeeds
    and gives back the same type name, end guids and status; a falsy guid
    comes back as [None] and falsy attributes come back as the empty
    mapping, truthy ones unchanged. Unlike for entities, no attribute key is
    treated specially. *)
Theorem relationship_round_trip (tn e1 e2 g attrs : value) (st : RelationshipStatus) :
  Relationship_from_atlas_dict
    (Relationship_to_atlas_dict (Relationship_new tn e1 e2 g st attrs)) =
    Ok (Relationship_new tn e1 e2
          (if truthy g then g else VNone) st
          (if truthy attrs then attrs else VDict ∅)).
Proof.
  unfold Relationship_from_atlas_dict.
  rewrite !Relationship_to_atlas_dict_lookup, !Relationship_new_fields. simpl.
  rewrite !lookup_singleton_eq. simpl.
  destruct st; simpl.
  all: rewrite Relationship_new_fields; do 2 f_equal.
  all: try by destruct (truthy g).
  all: destruct attrs as [ | b | n | s | l | d ]; simpl; try done.
  all: try by destruct b.
  all: try by destruct (negb (n =? 0)).
  all: try by destruct (negb (String.eqb s "")).
  all: try by destruct l.
  all: by destruct (negb (Nat.eqb (size d) 0)).
Qed.

(** ** Client authentication *)

(** X16. A credential object passed in is used as it is, whatever the other
    arguments; otherwise the credential built belongs to the first strategy
    asked for in the order service principal, managed identity, Azure CLI,
    interactive browser, default chain. *)
Theorem _setup_authentication_priority (env : environ) (args : AuthArguments) :
  (∀ provided, credential args = Some provided →
     _setup_authentication env args = Ok provided ∧
     List.find (strategy_requested args) strategy_order = Some Explicit) ∧
  (∀ c, credential args = None →
     _setup_authentication env args = Ok c →
     List.find (strategy_requested args) strategy_order = Some (strategy_of c)).
Proof.
  unfold _setup_authentication, strategy_order. split.
  - intros provided Hcred. rewrite Hcred. simpl.
    by rewrite Hcred, bool_decide_eq_true_2.
  - intros c Hcred. rewrite Hcred. simpl. rewrite Hcred.
    rewrite bool_decide_eq_false_2 by (by intros [? ?]).
    destruct (part_truthy (client_id args) && part_truthy (client_secret args)).
    { destruct (negb _); [discriminate|]. by intros [= <-]. }
    destruct (use_managed_identity args).
    { by destruct (part_truthy (managed_identity_client_id args)); intros [= <-]. }
    destruct (use_cli_credentials args); [by intros [= <-]|].
    destruct (interactive args); by intros [= <-].
Qed.

